(* ===================================================================== *)
(* capsule backend (backend/index.js): the three protected routes        *)
(*   POST /api/upload, POST /api/capsules/create, GET /api/capsules      *)
(* as functions on an explicit world: the clock, the Redis cache, the    *)
(* capsule collection, the S3 bucket and the log of calls sent to them.  *)
(* ===================================================================== *)

From Stdlib Require Import ZArith Ascii String List Lia.
From Stdlib.Strings Require Import Byte.
From stdpp Require Import base option gmap strings list pretty.

Set Warnings "-register-all".

Local Open Scope string_scope.
Local Open Scope Z_scope.

(* --------------------------------------------------------------------- *)
(* JavaScript values that cross the HTTP and cache boundaries             *)
(* --------------------------------------------------------------------- *)

(** A JSON value. Object members keep their order, as JSON.stringify
    emits them in property order. No handler looks inside a number; they
    are kept as integers. *)
Inductive Json : Type :=
| JNull
| JBool (b : bool)
| JNum (n : Z)
| JStr (s : string)
| JArr (items : list Json)
| JObj (members : list (string * Json)).

Module JSON.

Definition dquote : ascii := ascii_of_N 34.
Definition backslash : ascii := ascii_of_N 92.

Definition hex_digit (n : N) : ascii :=
  match n with
  | 0%N => "0" | 1%N => "1" | 2%N => "2" | 3%N => "3" | 4%N => "4"
  | 5%N => "5" | 6%N => "6" | 7%N => "7" | 8%N => "8" | 9%N => "9"
  | 10%N => "a" | 11%N => "b" | 12%N => "c" | 13%N => "d" | 14%N => "e"
  | _ => "f"
  end%char.

(** QuoteJSONString on one code unit: the two-character escapes, \u00XX
    for the other control characters, the character itself otherwise. *)
Definition escape_char (c : ascii) : string :=
  let n := N_of_ascii c in
  if (n =? 34)%N then String backslash (String dquote EmptyString)
  else if (n =? 92)%N then String backslash (String backslash EmptyString)
  else if (n =? 8)%N then "\b"
  else if (n =? 9)%N then "\t"
  else if (n =? 10)%N then "\n"
  else if (n =? 12)%N then "\f"
  else if (n =? 13)%N then "\r"
  else if (n <? 32)%N then
    "\u00" +:+ String (hex_digit (n / 16))
                      (String (hex_digit (n mod 16)) EmptyString)
  else String c EmptyString.

Fixpoint escape (s : string) : string :=
  match s with
  | EmptyString => EmptyString
  | String c rest => escape_char c +:+ escape rest
  end.

Definition quote (s : string) : string :=
  String dquote (escape s +:+ String dquote EmptyString).

Fixpoint join (sep : string) (l : list string) : string :=
  match l with
  | [] => EmptyString
  | [x] => x
  | x :: rest => x +:+ sep +:+ join sep rest
  end.

(** JSON.stringify on a JSON value (no indentation, no replacer). *)
Fixpoint stringify (j : Json) : string :=
  match j with
  | JNull => "null"
  | JBool true => "true"
  | JBool false => "false"
  | JNum n => pretty n
  | JStr s => quote s
  | JArr items => "[" +:+ join "," (List.map stringify items) +:+ "]"
  | JObj members =>
      "{" +:+ join ","
               (List.map (fun kv => quote (fst kv) +:+ ":" +:+ stringify (snd kv))
                         members)
          +:+ "}"
  end.

End JSON.

(** ToBoolean on what may be a string: undefined, null and the empty
    string are falsy, every other string is truthy. *)
Definition truthy (v : option string) : bool :=
  match v with
  | None => false
  | Some s => negb (String.eqb s EmptyString)
  end.

(** Template-literal interpolation of an environment variable that may be
    unset: an unset one prints as the word undefined. *)
Definition interpolate (v : option string) : string :=
  match v with
  | Some s => s
  | None => "undefined"
  end.

(* --------------------------------------------------------------------- *)
(* Requests, responses and the records the services exchange             *)
(* --------------------------------------------------------------------- *)

(** What a thrown error carries; the handlers read err.message only. *)
Record Error := { message : string }.

(** The payload jwt.verify returns, stored as req.user. The tokens are
    issued by routes/auth; the handlers read req.user.id only. *)
Record Verified := { id : string }.

(** One file part of a multipart body, as multer's memory storage keeps it. *)
Record FilePart := {
  fieldname : string;
  originalname : string;
  mimetype : string;
  buffer : list byte;
}.

(** An incoming request: the Authorization header (None when the request
    has none), req.body after express.json() (the members of the parsed
    object, empty when there is no JSON body) and the file parts. *)
Record Request := {
  Authorization : option string;
  body : list (string * Json);
  parts : list FilePart;
}.

Record Response := { status : Z; json : Json }.

(** res.json(..) without res.status(..) answers 200. *)
Definition res_json (j : Json) : Response := {| status := 200; json := j |}.
Definition res_status_json (code : Z) (j : Json) : Response :=
  {| status := code; json := j |}.

(** Reading a property of req.body: undefined (None) when it has none. *)
Fixpoint prop (name : string) (members : list (string * Json)) : option Json :=
  match members with
  | [] => None
  | (k, v) :: rest => if String.eqb k name then Some v else prop name rest
  end.

(** The argument of new Capsule({ user, title, content, media, releaseDate }). *)
Record CapsuleDoc := {
  user : string;
  title : option Json;
  content : option Json;
  media : option Json;
  releaseDate : option Json;
}.

(** Modelled from the spec: models/Capsule.js, the mongoose schema, is not
    part of the sources. A stored capsule is the document it was created
    from, the identifier the collection gave it and its creation time. *)
Record Capsule := {
  _id : nat;
  fields : CapsuleDoc;
  createdAt : Z;
}.

(** Modelled from the spec: the JSON form of a stored capsule (mongoose's
    toJSON for the schema that is not part of the sources): the owner, the
    four body fields that are defined, and the creation time. *)
Definition toJSON (c : Capsule) : Json :=
  let opt (name : string) (v : option Json) :=
    match v with Some j => [(name, j)] | None => [] end in
  JObj ([("_id", JStr (pretty (_id c))); ("user", JStr (user (fields c)))]
        ++ opt "title" (title (fields c))
        ++ opt "content" (content (fields c))
        ++ opt "media" (media (fields c))
        ++ opt "releaseDate" (releaseDate (fields c))
        ++ [("createdAt", JNum (createdAt c))]).

(** One label of Rekognition's DetectLabels answer. *)
Record Label := { Name : string; Confidence : Z }.

Record PutObjectInput := {
  Bucket : option string;
  Key : string;
  Body : list byte;
  ContentType : string;
}.

Record DetectLabelsInput := { Image_Bytes : list byte; MaxLabels : Z }.

(** The calls the handlers can send to the outside. DeleteObject is what
    a clean-up of an uploaded object would have to send. *)
Inductive Call : Type :=
| PutObject (input : PutObjectInput)
| DeleteObject (bucket : option string) (key : string)
| DetectLabels (input : DetectLabelsInput)
| RedisGet (key : string)
| RedisSetEx (key : string) (seconds : Z) (value : string)
| CapsuleSave (doc : CapsuleDoc)
| CapsuleFind (owner : string).

Definition is_cache_call (c : Call) : bool :=
  match c with RedisGet _ | RedisSetEx _ _ _ => true | _ => false end.
Definition is_storage_call (c : Call) : bool :=
  match c with PutObject _ | DeleteObject _ _ => true | _ => false end.

(* --------------------------------------------------------------------- *)
(* The world outside the process                                         *)
(* --------------------------------------------------------------------- *)

Record World := {
  now : Z;                                (* clock, in seconds *)
  redis : gmap string (string * Z);       (* key -> value, expiry time *)
  capsules : list Capsule;                (* the capsule collection *)
  next_id : nat;                          (* next identifier it hands out *)
  bucket : gmap string (list byte * string); (* object key -> body, type *)
  uuids_drawn : nat;                      (* calls of crypto.randomUUID so far *)
  log : list Call;                        (* calls sent so far, oldest first *)
}.

(** What the process does not decide: which calls throw and with what
    error, what the label detector answers, what randomUUID draws. *)
Record Services := {
  fault : Call -> option Error;
  detector : list byte -> Z -> list Label;
  uuid_source : nat -> string;
}.

(** How a call ends: with a value, or with a thrown error. *)
Inductive Outcome (A : Type) : Type :=
| Returned (a : A)
| Thrown (e : Error).
Arguments Returned {A} a.
Arguments Thrown {A} e.

(** The library functions the handlers call: jwt.verify (token, secret,
    current time), JSON.parse and path.extname; the first two may throw. *)
Record Runtime := {
  jwt_verify : string -> option string -> Z -> Outcome Verified;
  JSON_parse : string -> Outcome Json;
  path_extname : string -> string;
}.

(** process.env, the variables the handlers read. *)
Record ProcessEnv := {
  AWS_REGION : option string;
  AWS_S3_BUCKET : option string;
  JWT_SECRET : option string;
}.

(* --------------------------------------------------------------------- *)
(* Awaited computations: state passing with exceptions                   *)
(* --------------------------------------------------------------------- *)

Definition Async (A : Type) : Type := World -> Outcome A * World.

Definition ret {A} (a : A) : Async A := fun w => (Returned a, w).

Definition bind {A B} (m : Async A) (k : A -> Async B) : Async B :=
  fun w =>
    match m w with
    | (Returned a, w1) => k a w1
    | (Thrown e, w1) => (Thrown e, w1)
    end.

Notation "x <- m ;; k" := (bind m (fun x => k))
  (at level 100, m at next level, right associativity).

(** What Express gets back from a route: a response that was sent, or an
    error handed to next(err), which the file has no middleware for. *)
Inductive Reply : Type :=
| Sent (res : Response)
| PassedOn (err : Error).

Definition Route : Type := World -> Reply * World.

(** try { body } catch (err) { handler(err) }, around a whole handler. *)
Definition try_catch (body : Async Response) (handler : Error -> Response) : Route :=
  fun w =>
    match body w with
    | (Returned r, w1) => (Sent r, w1)
    | (Thrown e, w1) => (Sent (handler e), w1)
    end.

Definition lift {A} (o : Outcome A) : Async A := fun w => (o, w).

(** if (v) { yes } else { no } on a value that is a string or undefined. *)
Definition if_truthy {A} (v : option string) (yes : string -> A) (no : A) : A :=
  match v with
  | Some s => if truthy (Some s) then yes s else no
  | None => no
  end.

(* Field updates of the world. *)
Definition set_redis (r : gmap string (string * Z)) (w : World) : World :=
  {| now := now w; redis := r; capsules := capsules w; next_id := next_id w;
     bucket := bucket w; uuids_drawn := uuids_drawn w; log := log w |}.
Definition set_capsules (cs : list Capsule) (n : nat) (w : World) : World :=
  {| now := now w; redis := redis w; capsules := cs; next_id := n;
     bucket := bucket w; uuids_drawn := uuids_drawn w; log := log w |}.
Definition set_bucket (b : gmap string (list byte * string)) (w : World) : World :=
  {| now := now w; redis := redis w; capsules := capsules w; next_id := next_id w;
     bucket := b; uuids_drawn := uuids_drawn w; log := log w |}.
Definition set_uuids_drawn (n : nat) (w : World) : World :=
  {| now := now w; redis := redis w; capsules := capsules w; next_id := next_id w;
     bucket := bucket w; uuids_drawn := n; log := log w |}.
Definition logged (c : Call) (w : World) : World :=
  {| now := now w; redis := redis w; capsules := capsules w; next_id := next_id w;
     bucket := bucket w; uuids_drawn := uuids_drawn w; log := log w ++ [c] |}.
(** Time passing between two requests. *)
Definition elapse (seconds : Z) (w : World) : World :=
  {| now := now w + seconds; redis := redis w; capsules := capsules w;
     next_id := next_id w; bucket := bucket w; uuids_drawn := uuids_drawn w;
     log := log w |}.

(** What the cache holds under a key: an entry is gone once its expiry
    time is reached. *)
Definition cached (key : string) (w : World) : option string :=
  match redis w !! key with
  | Some (value, expiry) => if now w <? expiry then Some value else None
  | None => None
  end.

(** All capsules of one owner, in insertion order. *)
Definition owned_by (owner : string) (cs : list Capsule) : list Capsule :=
  List.filter (fun c => String.eqb (user (fields c)) owner) cs.

Section Handlers.

Variable rt : Runtime.
Variable env : ProcessEnv.
Variable sv : Services.

(** Sending a call: it is logged, then it either throws, leaving the
    service as it was, or takes effect and returns. *)
Definition send {A} (c : Call) (effect : World -> A * World) : Async A :=
  fun w =>
    let w1 := logged c w in
    match fault sv c with
    | Some e => (Thrown e, w1)
    | None => let (a, w2) := effect w1 in (Returned a, w2)
    end.

Definition redisClient_get (key : string) : Async (option string) :=
  send (RedisGet key) (fun w => (cached key w, w)).

Definition redisClient_setEx (key : string) (seconds : Z) (value : string)
  : Async unit :=
  send (RedisSetEx key seconds value)
       (fun w => (tt, set_redis (<[key := (value, now w + seconds)]> (redis w)) w)).

Definition Capsule_save (doc : CapsuleDoc) : Async unit :=
  send (CapsuleSave doc)
       (fun w =>
          let stored := {| _id := next_id w; fields := doc; createdAt := now w |} in
          (tt, set_capsules (capsules w ++ [stored]) (S (next_id w)) w)).

Definition Capsule_find (owner : string) : Async (list Capsule) :=
  send (CapsuleFind owner) (fun w => (owned_by owner (capsules w), w)).

Definition s3_send_PutObject (input : PutObjectInput) : Async unit :=
  send (PutObject input)
       (fun w => (tt, set_bucket
                        (<[Key input := (Body input, ContentType input)]> (bucket w)) w)).

Definition rekognition_send_DetectLabels (input : DetectLabelsInput)
  : Async (list Label) :=
  send (DetectLabels input)
       (fun w => (detector sv (Image_Bytes input) (MaxLabels input), w)).

Definition crypto_randomUUID : Async string :=
  fun w => (Returned (uuid_source sv (uuids_drawn w)),
            set_uuids_drawn (S (uuids_drawn w)) w).

(* ------------------------------------------------------------------- *)
(* Middleware                                                          *)
(* ------------------------------------------------------------------- *)

Definition authenticateToken (req : Request) (next : Verified -> Route) : Route :=
  fun w =>
    let token := Authorization req in
    if_truthy token
      (fun token =>
         match jwt_verify rt token (JWT_SECRET env) (now w) with
         | Returned verified => next verified w
         | Thrown err =>
             (Sent (res_status_json 400 (JObj [("message", JStr "Invalid Token")])), w)
         end)
      (Sent (res_status_json 401 (JObj [("message", JStr "Access Denied")])), w).

(** multer drops a file part whose filename is empty before it looks at
    anything else (`if (!filename) return fileStream.resume()`). *)
Definition kept_by_multer (p : FilePart) : bool :=
  truthy (Some (originalname p)).

(** multer's upload.single(name) on memory storage: of the file parts it
    keeps, req.file is the one part of that field, undefined when there is
    none; any other kept file part is an error handed to next(err). *)
Definition upload_single (name : string) (req : Request)
           (next : option FilePart -> Route) : Route :=
  match List.filter kept_by_multer (parts req) with
  | [] => next None
  | [p] =>
      if String.eqb (fieldname p) name then next (Some p)
      else fun w => (PassedOn {| message := "Unexpected field" |}, w)
  | _ => fun w => (PassedOn {| message := "Unexpected field" |}, w)
  end.

(* ------------------------------------------------------------------- *)
(* Handlers                                                            *)
(* ------------------------------------------------------------------- *)

Definition fileUrl_of (fileName : string) : string :=
  "https://" +:+ interpolate (AWS_S3_BUCKET env) +:+ ".s3."
             +:+ interpolate (AWS_REGION env) +:+ ".amazonaws.com/" +:+ fileName.

(** POST /api/upload, the handler after the two middlewares. *)
Definition upload_handler (file : option FilePart) : Route :=
  try_catch
    (match file with
     | None => ret (res_status_json 400 (JObj [("message", JStr "No file uploaded")]))
     | Some file =>
         uuid <- crypto_randomUUID ;;
         let fileName := uuid +:+ path_extname rt (originalname file) in
         let uploadParams :=
           {| Bucket := AWS_S3_BUCKET env; Key := fileName;
              Body := buffer file; ContentType := mimetype file |} in
         _ <- s3_send_PutObject uploadParams ;;
         let fileUrl := fileUrl_of fileName in
         let rekognitionParams :=
           {| Image_Bytes := buffer file; MaxLabels := 5 |} in
         Labels <- rekognition_send_DetectLabels rekognitionParams ;;
         let detectedLabels := List.map Name Labels in
         ret (res_json (JObj [("fileUrl", JStr fileUrl);
                              ("detectedLabels", JArr (List.map JStr detectedLabels))]))
     end)
    (fun err => res_status_json 500
                  (JObj [("message", JStr "Upload failed");
                         ("error", JStr (message err))])).

(** POST /api/capsules/create, the handler after authenticateToken. *)
Definition create_handler (req : Request) (req_user : Verified) : Route :=
  try_catch
    (let title := prop "title" (body req) in
     let content := prop "content" (body req) in
     let media := prop "media" (body req) in
     let releaseDate := prop "releaseDate" (body req) in
     let newCapsule :=
       {| user := id req_user; title := title; content := content;
          media := media; releaseDate := releaseDate |} in
     _ <- Capsule_save newCapsule ;;
     ret (res_status_json 201 (JObj [("message", JStr "Capsule created successfully")])))
    (fun err => res_status_json 500 (JObj [("message", JStr "Server error")])).

Definition cacheKey_of (req_user : Verified) : string :=
  "capsules_" +:+ id req_user.

(** GET /api/capsules, the handler after authenticateToken. *)
Definition list_handler (req_user : Verified) : Route :=
  try_catch
    (let cacheKey := cacheKey_of req_user in
     cachedData <- redisClient_get cacheKey ;;
     if_truthy cachedData
       (fun cachedData =>
          parsed <- lift (JSON_parse rt cachedData) ;;
          ret (res_json parsed))
       (capsules <- Capsule_find (id req_user) ;;
        _ <- redisClient_setEx cacheKey 3600
               (JSON.stringify (JArr (List.map toJSON capsules))) ;;
        ret (res_json (JArr (List.map toJSON capsules)))))
    (fun err => res_status_json 500 (JObj [("message", JStr "Server error")])).

(* ------------------------------------------------------------------- *)
(* Routes                                                              *)
(* ------------------------------------------------------------------- *)

(* The chains app.post and app.get register. What runs before them for
   every request (cors, express.json, compression, the rate limiter, and
   the routers of routes/auth and routes/capsules, which are not part of
   the sources) is not modelled; express.json shows as the body field. *)

Definition post_api_upload (req : Request) : Route :=
  authenticateToken req (fun _ => upload_single "file" req upload_handler).

Definition post_api_capsules_create (req : Request) : Route :=
  authenticateToken req (fun req_user => create_handler req req_user).

Definition get_api_capsules (req : Request) : Route :=
  authenticateToken req (fun req_user => list_handler req_user).

End Handlers.

(* --------------------------------------------------------------------- *)
(* A reference runtime, to run the routes on concrete requests           *)
(* --------------------------------------------------------------------- *)

Module Reference.

(** path.extname, POSIX flavour, following Node's backward scan: the
    extension runs from the last dot of the last path segment to its
    end; a segment that has no dot, or only a leading one, has none. *)
Record ExtScan := {
  startDot : Z; startPart : Z; end_ : Z; matchedSlash : bool;
  preDotState : Z; stopped : bool;
}.

Definition ext_step (i : Z) (code : N) (st : ExtScan) : ExtScan :=
  if stopped st then st
  else if (code =? 47)%N then
    if negb (matchedSlash st)
    then {| startDot := startDot st; startPart := i + 1; end_ := end_ st;
            matchedSlash := matchedSlash st; preDotState := preDotState st;
            stopped := true |}
    else st
  else
    let st1 :=
      if end_ st =? -1
      then {| startDot := startDot st; startPart := startPart st; end_ := i + 1;
              matchedSlash := false; preDotState := preDotState st;
              stopped := false |}
      else st in
    if (code =? 46)%N then
      if startDot st1 =? -1
      then {| startDot := i; startPart := startPart st1; end_ := end_ st1;
              matchedSlash := matchedSlash st1; preDotState := preDotState st1;
              stopped := false |}
      else if negb (preDotState st1 =? 1)
      then {| startDot := startDot st1; startPart := startPart st1;
              end_ := end_ st1; matchedSlash := matchedSlash st1;
              preDotState := 1; stopped := false |}
      else st1
    else if negb (startDot st1 =? -1)
    then {| startDot := startDot st1; startPart := startPart st1;
            end_ := end_ st1; matchedSlash := matchedSlash st1;
            preDotState := -1; stopped := false |}
    else st1.

(** The scan visits the characters from the last to the first. *)
Fixpoint ext_scan (chars_rev : list ascii) (i : Z) (st : ExtScan) : ExtScan :=
  match chars_rev with
  | [] => st
  | c :: rest => ext_scan rest (i - 1) (ext_step i (N_of_ascii c) st)
  end.

Definition extname (path : string) : string :=
  let chars := list_ascii_of_string path in
  let st := ext_scan (rev chars) (Z.of_nat (String.length path) - 1)
              {| startDot := -1; startPart := 0; end_ := -1;
                 matchedSlash := true; preDotState := 0; stopped := false |} in
  if (startDot st =? -1) || (end_ st =? -1) || (preDotState st =? 0)
     || ((preDotState st =? 1) && (startDot st =? end_ st - 1)
         && (startDot st =? startPart st + 1))
  then EmptyString
  else String.substring (Z.to_nat (startDot st))
                        (Z.to_nat (end_ st - startDot st)) path.

(** A stand-in for jwt.verify: a token is the secret, a dot and the
    user id. It throws as jsonwebtoken does on an empty token, on a
    missing secret and on a token the secret did not sign. *)
Fixpoint strip_prefix (p s : string) : option string :=
  match p, s with
  | EmptyString, _ => Some s
  | String a p', String b s' =>
      if Ascii.eqb a b then strip_prefix p' s' else None
  | String _ _, EmptyString => None
  end.

Definition verify (token : string) (secret : option string) (now : Z)
  : Outcome Verified :=
  if String.eqb token EmptyString
  then Thrown {| message := "jwt must be provided" |}
  else match secret with
       | None => Thrown {| message := "secret or public key must be provided" |}
       | Some key =>
           match strip_prefix (key +:+ ".") token with
           | Some subject => Returned {| id := subject |}
           | None => Thrown {| message := "invalid signature" |}
           end
       end.

(* JSON.parse for the texts JSON.stringify above produces, and the rest
   of the grammar except fractions, exponents and \u escapes of
   characters beyond one byte. *)

Definition is_ws (c : ascii) : bool :=
  let n := N_of_ascii c in
  (n =? 32)%N || (n =? 9)%N || (n =? 10)%N || (n =? 13)%N.

Definition is_digit (c : ascii) : bool :=
  let n := N_of_ascii c in (48 <=? n)%N && (n <=? 57)%N.

Definition digit_of (c : ascii) : Z := Z.of_N (N_of_ascii c) - 48.

Fixpoint skip_ws (s : string) : string :=
  match s with
  | String c rest => if is_ws c then skip_ws rest else s
  | EmptyString => s
  end.

Fixpoint digits (acc : Z) (s : string) : Z * string :=
  match s with
  | String c rest => if is_digit c then digits (acc * 10 + digit_of c) rest else (acc, s)
  | EmptyString => (acc, s)
  end.

(** An integer literal: an optional minus, then 0 or a digit string
    without a leading zero. *)
Definition number (s : string) : option (Z * string) :=
  let '(negative, s1) :=
    match s with
    | String "-"%char rest => (true, rest)
    | _ => (false, s)
    end in
  match s1 with
  | String c rest =>
      if is_digit c then
        let '(n, s2) :=
          if Ascii.eqb c "0" then (0, rest) else digits 0 s1 in
        match s2 with
        | String d _ =>
            if is_digit d || Ascii.eqb d "." || Ascii.eqb d "e" || Ascii.eqb d "E"
            then None
            else Some (if negative then - n else n, s2)
        | EmptyString => Some (if negative then - n else n, s2)
        end
      else None
  | EmptyString => None
  end.

Definition unescape (e : ascii) : option ascii :=
  let n := N_of_ascii e in
  if (n =? 34)%N then Some JSON.dquote
  else if (n =? 92)%N then Some JSON.backslash
  else if Ascii.eqb e "/" then Some "/"%char
  else if Ascii.eqb e "b" then Some (ascii_of_N 8)
  else if Ascii.eqb e "f" then Some (ascii_of_N 12)
  else if Ascii.eqb e "n" then Some (ascii_of_N 10)
  else if Ascii.eqb e "r" then Some (ascii_of_N 13)
  else if Ascii.eqb e "t" then Some (ascii_of_N 9)
  else None.

Definition hex_value (c : ascii) : option N :=
  let n := N_of_ascii c in
  if (48 <=? n)%N && (n <=? 57)%N then Some (n - 48)%N
  else if (97 <=? n)%N && (n <=? 102)%N then Some (n - 87)%N
  else if (65 <=? n)%N && (n <=? 70)%N then Some (n - 55)%N
  else None.

(** The character a \uXXXX escape names, when it fits one byte. *)
Definition code_unit (h1 h2 h3 h4 : ascii) : option ascii :=
  match hex_value h1, hex_value h2, hex_value h3, hex_value h4 with
  | Some a, Some b, Some c, Some d =>
      let code := (((a * 16 + b) * 16 + c) * 16 + d)%N in
      if (code <? 256)%N then Some (ascii_of_N code) else None
  | _, _, _, _ => None
  end.

(** The characters of a string literal after its opening quote. *)
Fixpoint string_body (s : string) : option (string * string) :=
  match s with
  | EmptyString => None
  | String c rest =>
      let n := N_of_ascii c in
      if (n =? 34)%N then Some (EmptyString, rest)
      else if (n =? 92)%N then
        match rest with
        | String e rest' =>
            if Ascii.eqb e "u" then
              match rest' with
              | String h1 (String h2 (String h3 (String h4 rest''))) =>
                  match code_unit h1 h2 h3 h4, string_body rest'' with
                  | Some c', Some (text, after) => Some (String c' text, after)
                  | _, _ => None
                  end
              | _ => None
              end
            else
              match unescape e, string_body rest' with
              | Some c', Some (text, after) => Some (String c' text, after)
              | _, _ => None
              end
        | EmptyString => None
        end
      else if (n <? 32)%N then None
      else match string_body rest with
           | Some (text, after) => Some (String c text, after)
           | None => None
           end
  end.

Fixpoint value (fuel : nat) (s : string) : option (Json * string) :=
  match fuel with
  | O => None
  | S fuel' =>
      match skip_ws s with
      | String c rest =>
          if Ascii.eqb c "[" then
            match skip_ws rest with
            | String "]"%char after => Some (JArr [], after)
            | _ => match elements fuel' rest with
                   | Some (items, after) => Some (JArr items, after)
                   | None => None
                   end
            end
          else if Ascii.eqb c "{" then
            match skip_ws rest with
            | String "}"%char after => Some (JObj [], after)
            | _ => match members fuel' rest with
                   | Some (ms, after) => Some (JObj ms, after)
                   | None => None
                   end
            end
          else if (N_of_ascii c =? 34)%N then
            match string_body rest with
            | Some (text, after) => Some (JStr text, after)
            | None => None
            end
          else if Ascii.eqb c "n" then
            match strip_prefix "null" (String c rest) with
            | Some after => Some (JNull, after)
            | None => None
            end
          else if Ascii.eqb c "t" then
            match strip_prefix "true" (String c rest) with
            | Some after => Some (JBool true, after)
            | None => None
            end
          else if Ascii.eqb c "f" then
            match strip_prefix "false" (String c rest) with
            | Some after => Some (JBool false, after)
            | None => None
            end
          else match number (String c rest) with
               | Some (n, after) => Some (JNum n, after)
               | None => None
               end
      | EmptyString => None
      end
  end
with elements (fuel : nat) (s : string) : option (list Json * string) :=
  match fuel with
  | O => None
  | S fuel' =>
      match value fuel' s with
      | Some (item, after) =>
          match skip_ws after with
          | String c rest =>
              if Ascii.eqb c "]" then Some ([item], rest)
              else if Ascii.eqb c "," then
                match elements fuel' rest with
                | Some (items, after') => Some (item :: items, after')
                | None => None
                end
              else None
          | EmptyString => None
          end
      | None => None
      end
  end
with members (fuel : nat) (s : string) : option (list (string * Json) * string) :=
  match fuel with
  | O => None
  | S fuel' =>
      match skip_ws s with
      | String q rest =>
          if (N_of_ascii q =? 34)%N then
            match string_body rest with
            | Some (name, after) =>
                match skip_ws after with
                | String ":"%char rest1 =>
                    match value fuel' rest1 with
                    | Some (v, after1) =>
                        match skip_ws after1 with
                        | String c rest2 =>
                            if Ascii.eqb c "}" then Some ([(name, v)], rest2)
                            else if Ascii.eqb c "," then
                              match members fuel' rest2 with
                              | Some (ms, after2) => Some ((name, v) :: ms, after2)
                              | None => None
                              end
                            else None
                        | EmptyString => None
                        end
                    | None => None
                    end
                | _ => None
                end
            | None => None
            end
          else None
      | EmptyString => None
      end
  end.

Definition parse (text : string) : Outcome Json :=
  match value (2 * String.length text + 2) text with
  | Some (j, after) =>
      match skip_ws after with
      | EmptyString => Returned j
      | String _ _ => Thrown {| message := "Unexpected non-whitespace character after JSON" |}
      end
  | None => Thrown {| message := "Unexpected token in JSON" |}
  end.

Definition runtime : Runtime :=
  {| jwt_verify := verify; JSON_parse := parse; path_extname := extname |}.

End Reference.

(* --------------------------------------------------------------------- *)
(* Vocabulary of the properties                                          *)
(* --------------------------------------------------------------------- *)

(** The request carries a non-empty token that jwt.verify accepts at
    time [t], with payload [verified]. *)
Definition authenticated (rt : Runtime) (env : ProcessEnv) (req : Request)
           (t : Z) (verified : Verified) : Prop :=
  exists token,
    Authorization req = Some token /\ token <> EmptyString
    /\ jwt_verify rt token (JWT_SECRET env) t = Returned verified.

(** The request carries a non-empty token that jwt.verify rejects. *)
Definition rejected (rt : Runtime) (env : ProcessEnv) (req : Request) (t : Z) : Prop :=
  exists token err,
    Authorization req = Some token /\ token <> EmptyString
    /\ jwt_verify rt token (JWT_SECRET env) t = Thrown err.

Definition access_denied : Response :=
  {| status := 401; json := JObj [("message", JStr "Access Denied")] |}.
Definition invalid_token : Response :=
  {| status := 400; json := JObj [("message", JStr "Invalid Token")] |}.
Definition no_file_uploaded : Response :=
  {| status := 400; json := JObj [("message", JStr "No file uploaded")] |}.
Definition upload_failed (err : Error) : Response :=
  {| status := 500;
     json := JObj [("message", JStr "Upload failed"); ("error", JStr (message err))] |}.
Definition capsule_created : Response :=
  {| status := 201; json := JObj [("message", JStr "Capsule created successfully")] |}.
Definition server_error : Response :=
  {| status := 500; json := JObj [("message", JStr "Server error")] |}.
Definition ok (j : Json) : Response := {| status := 200; json := j |}.

(** The document the create handler builds for a caller and a body. *)
Definition doc_of (verified : Verified) (req : Request) : CapsuleDoc :=
  {| user := id verified;
     title := prop "title" (body req);
     content := prop "content" (body req);
     media := prop "media" (body req);
     releaseDate := prop "releaseDate" (body req) |}.

(** The calls of an upload of [file] when randomUUID draws [uuid]. *)
Definition put_of (rt : Runtime) (env : ProcessEnv) (uuid : string) (file : FilePart)
  : Call :=
  PutObject {| Bucket := AWS_S3_BUCKET env;
               Key := uuid +:+ path_extname rt (originalname file);
               Body := buffer file; ContentType := mimetype file |}.
Definition detect_of (file : FilePart) : Call :=
  DetectLabels {| Image_Bytes := buffer file; MaxLabels := 5 |}.

(** The record the collection stores for a document saved in [w]. *)
Definition stored_in (w : World) (doc : CapsuleDoc) : Capsule :=
  {| _id := next_id w; fields := doc; createdAt := now w |}.

(** The cached text of a listing: JSON.stringify of the capsules. *)
Definition listing_text (found : list Capsule) : string :=
  JSON.stringify (JArr (List.map toJSON found)).

(** The three protected routes of the file. *)
Definition protected_routes (rt : Runtime) (env : ProcessEnv) (sv : Services)
  : list (Request -> Route) :=
  [post_api_upload rt env sv; post_api_capsules_create rt env sv;
   get_api_capsules rt env sv].

(* --------------------------------------------------------------------- *)
(* Concrete requests, services and worlds                                *)
(* --------------------------------------------------------------------- *)

Module Scenario.

Definition env : ProcessEnv :=
  {| AWS_REGION := Some "eu-west-1"; AWS_S3_BUCKET := Some "capsule-media";
     JWT_SECRET := Some "s3cret" |}.

Definition labels : list Label :=
  [{| Name := "Dog"; Confidence := 98 |}; {| Name := "Beach"; Confidence := 91 |};
   {| Name := "Dog"; Confidence := 80 |}; {| Name := "Animal"; Confidence := 99 |}].

(** Every call returns. *)
Definition healthy : Services :=
  {| fault := fun _ => None;
     detector := fun _ _ => labels;
     uuid_source := fun n => "0b5c2f9e-7a41-4c1d-9e57-3d2a6f10c4b" +:+ pretty n |}.

(** The storage put throws. *)
Definition storage_down : Services :=
  {| fault := fun c => match c with
                       | PutObject _ => Some {| message := "Access Denied by S3" |}
                       | _ => None
                       end;
     detector := detector healthy; uuid_source := uuid_source healthy |}.

(** The label detection throws. *)
Definition detector_down : Services :=
  {| fault := fun c => match c with
                       | DetectLabels _ => Some {| message := "Invalid image format" |}
                       | _ => None
                       end;
     detector := detector healthy; uuid_source := uuid_source healthy |}.

(** The cache takes reads and refuses writes. *)
Definition cache_read_only : Services :=
  {| fault := fun c => match c with
                       | RedisSetEx _ _ _ => Some {| message := "READONLY" |}
                       | _ => None
                       end;
     detector := detector healthy; uuid_source := uuid_source healthy |}.

(** The store refuses queries. *)
Definition store_down : Services :=
  {| fault := fun c => match c with
                       | CapsuleFind _ => Some {| message := "connection closed" |}
                       | _ => None
                       end;
     detector := detector healthy; uuid_source := uuid_source healthy |}.

Definition alice : Verified := {| id := "alice" |}.
Definition alice_token : string := "s3cret.alice".

Definition photo : FilePart :=
  {| fieldname := "file"; originalname := "beach.JPG"; mimetype := "image/jpeg";
     buffer := [x89; x50; x4e; x47] |}.

Definition upload_req : Request :=
  {| Authorization := Some alice_token; body := []; parts := [photo] |}.

Definition upload_nothing_req : Request :=
  {| Authorization := Some alice_token; body := []; parts := [] |}.

(** The body of the spec's example, with a user member added. *)
Definition create_req : Request :=
  {| Authorization := Some alice_token;
     body := [("user", JStr "mallory"); ("title", JStr "T"); ("content", JStr "C");
              ("media", JArr []); ("releaseDate", JStr "2030-01-01")];
     parts := [] |}.

Definition list_req : Request :=
  {| Authorization := Some alice_token; body := []; parts := [] |}.

Definition no_header_req : Request :=
  {| Authorization := None; body := []; parts := [] |}.

Definition empty_header_req : Request :=
  {| Authorization := Some EmptyString; body := []; parts := [] |}.

Definition forged_req : Request :=
  {| Authorization := Some "guess.alice"; body := []; parts := [] |}.

(** Nothing stored anywhere, the clock at 1000 seconds. *)
Definition fresh : World :=
  {| now := 1000; redis := ∅; capsules := []; next_id := 0; bucket := ∅;
     uuids_drawn := 0; log := [] |}.

Definition alice_capsule : Capsule :=
  {| _id := 0; fields := doc_of alice create_req; createdAt := 900 |}.

(** Alice owns one capsule, and the cache holds the empty text under
    her key, alive until 5000. *)
Definition empty_entry : World :=
  {| now := 1000; redis := {[ "capsules_alice" := (EmptyString, 5000) ]};
     capsules := [alice_capsule]; next_id := 1; bucket := ∅;
     uuids_drawn := 0; log := [] |}.

(** Alice owns nothing yet, and the cache holds her empty listing. *)
Definition empty_listing_cached : World :=
  {| now := 1000; redis := {[ "capsules_alice" := ("[]", 4000) ]};
     capsules := []; next_id := 0; bucket := ∅;
     uuids_drawn := 0; log := [] |}.

End Scenario.

(** Further services, requests and worlds. *)
Module Outage.

(** The cache refuses reads. *)
Definition cache_down : Services :=
  {| fault := fun c => match c with
                       | RedisGet _ => Some {| message := "ECONNREFUSED" |}
                       | _ => None
                       end;
     detector := detector Scenario.healthy;
     uuid_source := uuid_source Scenario.healthy |}.

(** The collection refuses writes. *)
Definition save_down : Services :=
  {| fault := fun c => match c with
                       | CapsuleSave _ => Some {| message := "validation failed" |}
                       | _ => None
                       end;
     detector := detector Scenario.healthy;
     uuid_source := uuid_source Scenario.healthy |}.

Definition bob : Verified := {| id := "bob" |}.

Definition bob_upload_req : Request :=
  {| Authorization := Some "s3cret.bob"; body := [("note", JStr "mine")];
     parts := [Scenario.photo] |}.

(** A file part named file whose filename is empty, as a form sends when
    no file was chosen, and the upload request that carries it alone. *)
Definition unnamed_part : FilePart :=
  {| fieldname := "file"; originalname := EmptyString;
     mimetype := "application/octet-stream"; buffer := [] |}.

Definition unnamed_upload_req : Request :=
  {| Authorization := Some Scenario.alice_token; body := [];
     parts := [unnamed_part] |}.

(** A create request with an empty body. *)
Definition bare_create_req : Request :=
  {| Authorization := Some Scenario.alice_token; body := []; parts := [] |}.

(** The cache holds, under alice's key, a text that is not JSON. *)
Definition garbled_entry : World :=
  {| now := 1000; redis := {[ "capsules_alice" := ("<html>", 5000) ]};
     capsules := [Scenario.alice_capsule]; next_id := 1; bucket := ∅;
     uuids_drawn := 0; log := [] |}.

(** Alice and bob own one capsule each; the cache holds bob's listing. *)
Definition bob_capsule : Capsule :=
  {| _id := 1;
     fields := {| user := "bob"; title := Some (JStr "B"); content := None;
                  media := None; releaseDate := None |};
     createdAt := 950 |}.

Definition two_owners : World :=
  {| now := 1000; redis := {[ "capsules_bob" := ("[]", 2000) ]};
     capsules := [Scenario.alice_capsule; bob_capsule]; next_id := 2; bucket := ∅;
     uuids_drawn := 0; log := [] |}.

End Outage.

(* --------------------------------------------------------------------- *)
(* The server over time                                                  *)
(* --------------------------------------------------------------------- *)

Inductive Endpoint : Type := Upload | Create | Listing.

Definition serve (rt : Runtime) (env : ProcessEnv) (sv : Services)
           (e : Endpoint) : Request -> Route :=
  match e with
  | Upload => post_api_upload rt env sv
  | Create => post_api_capsules_create rt env sv
  | Listing => get_api_capsules rt env sv
  end.

(** One request reaching the server: how long after the previous one, how
    the services behave while it is handled, which route, what request. *)
Record Arrival := {
  seconds_later : N;
  services : Services;
  endpoint : Endpoint;
  request : Request;
}.

(** The world after a sequence of requests, handled one after the other. *)
Fixpoint serve_all (rt : Runtime) (env : ProcessEnv) (arrivals : list Arrival)
         (w : World) : World :=
  match arrivals with
  | [] => w
  | a :: rest =>
      serve_all rt env rest
        (snd (serve rt env (services a) (endpoint a) (request a)
                    (elapse (Z.of_N (seconds_later a)) w)))
  end.

(** Every cache entry sits under a listing key, holds a non-empty text
    and expires within 3600 seconds. *)
Definition cache_well_formed (w : World) : Prop :=
  forall key value expiry,
    redis w !! key = Some (value, expiry) ->
    value <> EmptyString /\ expiry <= now w + 3600
    /\ exists owner, key = "capsules_" +:+ owner.

Module Traffic.

(** Alice lists, creates, lists again a minute later and uploads. *)
Definition morning : list Arrival :=
  [{| seconds_later := 0; services := Scenario.healthy; endpoint := Listing;
      request := Scenario.list_req |};
   {| seconds_later := 5; services := Scenario.healthy; endpoint := Create;
      request := Scenario.create_req |};
   {| seconds_later := 60; services := Scenario.healthy; endpoint := Listing;
      request := Scenario.list_req |};
   {| seconds_later := 1; services := Scenario.detector_down; endpoint := Upload;
      request := Scenario.upload_req |}].

End Traffic.

(* ===================================================================== *)
(* Properties                                                            *)
(* ===================================================================== *)

Ltac alice_is_authenticated :=
  exists Scenario.alice_token;
  split; [reflexivity | split; [discriminate | reflexivity]].

Lemma truthy_Some (s : string) : truthy (Some s) = true <-> s <> EmptyString.
Proof.
  unfold truthy. destruct (String.eqb_spec s EmptyString); simpl; split;
    congruence.
Qed.

Lemma if_truthy_yes {A} (s : string) (yes : string -> A) (no : A) :
  s <> EmptyString -> if_truthy (Some s) yes no = yes s.
Proof.
  intros Hs. unfold if_truthy. apply truthy_Some in Hs. now rewrite Hs.
Qed.

Lemma if_truthy_no {A} (v : option string) (yes : string -> A) (no : A) :
  truthy v = false -> if_truthy v yes no = no.
Proof.
  intros Hv. unfold if_truthy. destruct v as [s|]; [now rewrite Hv | reflexivity].
Qed.

Lemma truthy_false_cases (v : option string) :
  truthy v = false <-> v = None \/ v = Some EmptyString.
Proof.
  destruct v as [s|]; simpl.
  - destruct (String.eqb_spec s EmptyString); simpl; split; intros H; subst; auto;
      try discriminate.
    destruct H as [H|H]; [discriminate | congruence].
  - split; auto.
Qed.

Section Authentication.

Variable rt : Runtime.
Variable env : ProcessEnv.

Lemma authenticateToken_passes req next w verified :
  authenticated rt env req (now w) verified ->
  authenticateToken rt env req next w = next verified w.
Proof.
  intros (token & Hhdr & Hne & Hver). unfold authenticateToken.
  rewrite Hhdr, (if_truthy_yes _ _ _ Hne), Hver. reflexivity.
Qed.

Lemma authenticateToken_401 req next w :
  truthy (Authorization req) = false ->
  authenticateToken rt env req next w = (Sent access_denied, w).
Proof.
  intros Hfalsy. unfold authenticateToken. now rewrite (if_truthy_no _ _ _ Hfalsy).
Qed.

Lemma authenticateToken_400 req next w :
  rejected rt env req (now w) ->
  authenticateToken rt env req next w = (Sent invalid_token, w).
Proof.
  intros (token & err & Hhdr & Hne & Hver). unfold authenticateToken.
  rewrite Hhdr, (if_truthy_yes _ _ _ Hne), Hver. reflexivity.
Qed.

End Authentication.

(** C4, as amended. On each protected route: a request whose Authorization
    header is absent or empty is answered 401, and one whose header holds
    a non-empty token that jwt.verify rejects is answered 400. In both
    cases the answer comes from the middleware alone: it is the same for
    every continuation put behind it, and the world, call log included,
    is left as it was. *)
Theorem protected_routes_deny_access rt env sv req w :
  ((Authorization req = None \/ Authorization req = Some EmptyString) ->
   (forall next, authenticateToken rt env req next w = (Sent access_denied, w))
   /\ Forall (fun route => route req w = (Sent access_denied, w))
             (protected_routes rt env sv))
  /\ (rejected rt env req (now w) ->
      (forall next, authenticateToken rt env req next w = (Sent invalid_token, w))
      /\ Forall (fun route => route req w = (Sent invalid_token, w))
                (protected_routes rt env sv))
  /\ status access_denied = 401 /\ status invalid_token = 400.
Proof.
  split; [| split; [| split; reflexivity]].
  - intros Hhdr. apply truthy_false_cases in Hhdr.
    split; [intros next; now apply authenticateToken_401 |].
    unfold protected_routes, post_api_upload, post_api_capsules_create,
      get_api_capsules.
    repeat constructor; now apply authenticateToken_401.
  - intros Hrej.
    split; [intros next; now apply authenticateToken_400 |].
    unfold protected_routes, post_api_upload, post_api_capsules_create,
      get_api_capsules.
    repeat constructor; now apply authenticateToken_400.
Qed.

(** C5. An authenticated upload request that carries no file part is
    answered 400 with the message No file uploaded, and the world is left
    as it was: no call reaches the object storage or the label detector. *)
Theorem upload_without_file rt env sv req w verified :
  authenticated rt env req (now w) verified ->
  parts req = [] ->
  post_api_upload rt env sv req w = (Sent no_file_uploaded, w)
  /\ status no_file_uploaded = 400
  /\ json no_file_uploaded = JObj [("message", JStr "No file uploaded")]
  /\ log (snd (post_api_upload rt env sv req w)) = log w.
Proof.
  intros Hauth Hparts. unfold post_api_upload.
  rewrite (authenticateToken_passes _ _ _ _ _ _ Hauth).
  unfold upload_single. rewrite Hparts. repeat split; reflexivity.
Qed.

Section Upload.

Variable rt : Runtime.
Variable env : ProcessEnv.
Variable sv : Services.

Lemma upload_single_one_file req next file :
  parts req = [file] -> fieldname file = "file" ->
  originalname file <> EmptyString ->
  upload_single "file" req next = next (Some file).
Proof.
  intros Hparts Hname Hfilename. unfold upload_single, kept_by_multer.
  rewrite Hparts. cbn [List.filter].
  apply truthy_Some in Hfilename. rewrite Hfilename, Hname.
  reflexivity.
Qed.

(** The three ways the handler can run on a file, by where a call throws. *)
Lemma upload_handler_run file w :
  let uuid := uuid_source sv (uuids_drawn w) in
  let put := put_of rt env uuid file in
  let key := uuid +:+ path_extname rt (originalname file) in
  let w1 := logged put (set_uuids_drawn (S (uuids_drawn w)) w) in
  let w2 := set_bucket (<[key := (buffer file, mimetype file)]> (bucket w1)) w1 in
  upload_handler rt env sv (Some file) w =
    match fault sv put with
    | Some err => (Sent (upload_failed err), w1)
    | None =>
        match fault sv (detect_of file) with
        | Some err => (Sent (upload_failed err), logged (detect_of file) w2)
        | None =>
            (Sent (ok (JObj [("fileUrl", JStr (fileUrl_of env key));
                             ("detectedLabels",
                              JArr (List.map JStr
                                      (List.map Name (detector sv (buffer file) 5))))])),
             logged (detect_of file) w2)
        end
    end.
Proof.
  unfold upload_handler, try_catch, bind, crypto_randomUUID, s3_send_PutObject,
    rekognition_send_DetectLabels, send, put_of, detect_of. simpl.
  destruct (fault sv (PutObject _)); [reflexivity |]. simpl.
  destruct (fault sv (DetectLabels _)); reflexivity.
Qed.

End Upload.

(** C3, as amended. An authenticated upload request with exactly one file
    part, named file, whose filename is not empty. The first call the
    handler sends is a storage put whose key is the UUID drawn from
    randomUUID followed by path.extname of the original file name, with
    the file's bytes as body, and it sends no other storage call. When the put returns, the only other call is a
    label detection on the same bytes with MaxLabels 5. When that returns
    too, the answer is 200 with fileUrl made of bucket, region and key,
    and detectedLabels the names of the detector's labels in its order. *)
Theorem upload_one_file rt env sv req w verified file :
  authenticated rt env req (now w) verified ->
  parts req = [file] -> fieldname file = "file" ->
  originalname file <> EmptyString ->
  let uuid := uuid_source sv (uuids_drawn w) in
  let key := uuid +:+ path_extname rt (originalname file) in
  let put := PutObject {| Bucket := AWS_S3_BUCKET env; Key := key;
                          Body := buffer file; ContentType := mimetype file |} in
  let detect := DetectLabels {| Image_Bytes := buffer file; MaxLabels := 5 |} in
  let reply := fst (post_api_upload rt env sv req w) in
  let w' := snd (post_api_upload rt env sv req w) in
  (exists rest, log w' = (log w ++ put :: rest)%list
                /\ List.filter is_storage_call rest = [])
  /\ (fault sv put = None -> log w' = (log w ++ [put; detect])%list)
  /\ (fault sv put = None -> fault sv detect = None ->
      reply = Sent {| status := 200;
                      json := JObj [("fileUrl",
                                     JStr ("https://" +:+ interpolate (AWS_S3_BUCKET env)
                                           +:+ ".s3." +:+ interpolate (AWS_REGION env)
                                           +:+ ".amazonaws.com/" +:+ key));
                                    ("detectedLabels",
                                     JArr (List.map JStr
                                             (List.map Name (detector sv (buffer file) 5))))] |}).
Proof.
  intros Hauth Hparts Hname Hfilename. cbv zeta. unfold post_api_upload.
  rewrite (authenticateToken_passes _ _ _ _ _ _ Hauth).
  rewrite (upload_single_one_file _ _ _ Hparts Hname Hfilename).
  rewrite upload_handler_run. cbv zeta. unfold put_of, detect_of.
  destruct (fault sv (PutObject _)) as [e1|] eqn:Hput.
  - cbn. split; [exists []; split; reflexivity |].
    split; intros; discriminate.
  - destruct (fault sv (DetectLabels _)) as [e2|] eqn:Hdet; cbn;
      rewrite <- app_assoc; cbn.
    + split; [eexists [_]; split; reflexivity |].
      split; [reflexivity | intros; discriminate].
    + split; [eexists [_]; split; reflexivity |].
      split; reflexivity.
Qed.

(** C6. An authenticated upload request with a file that multer keeps (one
    file part, named file, with a filename), where the storage
    put throws, or the put returns and the label detection throws. The
    answer is the one Upload failed error, status 500, carrying the
    message of the error that was thrown. No DeleteObject is sent, and an
    object that the put stored is still in the bucket afterwards. *)
Theorem upload_failure rt env sv req w verified file err :
  authenticated rt env req (now w) verified ->
  parts req = [file] -> fieldname file = "file" ->
  originalname file <> EmptyString ->
  let uuid := uuid_source sv (uuids_drawn w) in
  let key := uuid +:+ path_extname rt (originalname file) in
  let put := PutObject {| Bucket := AWS_S3_BUCKET env; Key := key;
                          Body := buffer file; ContentType := mimetype file |} in
  let detect := DetectLabels {| Image_Bytes := buffer file; MaxLabels := 5 |} in
  fault sv put = Some err \/ (fault sv put = None /\ fault sv detect = Some err) ->
  let reply := fst (post_api_upload rt env sv req w) in
  let w' := snd (post_api_upload rt env sv req w) in
  reply = Sent {| status := 500;
                  json := JObj [("message", JStr "Upload failed");
                                ("error", JStr (message err))] |}
  /\ (exists calls, log w' = (log w ++ calls)%list
                    /\ forall b k, ~ In (DeleteObject b k) calls)
  /\ (fault sv put = None ->
      bucket w' !! key = Some (buffer file, mimetype file)).
Proof.
  intros Hauth Hparts Hname Hfilename. cbv zeta. intros Hfault.
  unfold post_api_upload.
  rewrite (authenticateToken_passes _ _ _ _ _ _ Hauth).
  rewrite (upload_single_one_file _ _ _ Hparts Hname Hfilename).
  rewrite upload_handler_run. cbv zeta. unfold put_of, detect_of.
  destruct Hfault as [Hput | [Hput Hdet]].
  - rewrite Hput. cbn. split; [reflexivity |].
    split; [| intros; discriminate].
    eexists [_]. split; [reflexivity |].
    intros b k [Hin | []]. discriminate.
  - rewrite Hput, Hdet. cbn. split; [reflexivity |].
    split.
    + eexists [_; _]. split; [now rewrite <- app_assoc |].
      intros b k [Hin | [Hin | []]]; discriminate.
    + intros _. apply lookup_insert_eq.
Qed.

Section Create.

Variable rt : Runtime.
Variable env : ProcessEnv.
Variable sv : Services.

Lemma create_handler_run req verified w :
  let save := CapsuleSave (doc_of verified req) in
  create_handler sv req verified w =
    match fault sv save with
    | Some err => (Sent server_error, logged save w)
    | None =>
        (Sent capsule_created,
         set_capsules (capsules w ++ [stored_in w (doc_of verified req)])
                      (S (next_id w)) (logged save w))
    end.
Proof.
  unfold create_handler, try_catch, bind, Capsule_save, send, doc_of. cbn.
  destruct (fault sv (CapsuleSave _)); reflexivity.
Qed.

(** Whatever the request, the route ends in one of three ways. *)
Lemma create_route_cases req w :
  post_api_capsules_create rt env sv req w = (Sent access_denied, w)
  \/ post_api_capsules_create rt env sv req w = (Sent invalid_token, w)
  \/ exists verified,
      post_api_capsules_create rt env sv req w = create_handler sv req verified w.
Proof.
  unfold post_api_capsules_create, authenticateToken, if_truthy.
  destruct (Authorization req) as [token|]; [| now left].
  destruct (truthy (Some token)); [| now left].
  destruct (jwt_verify rt token (JWT_SECRET env) (now w)) as [verified|err].
  - right; right. now exists verified.
  - right; now left.
Qed.

Lemma create_route_frame req w :
  let w' := snd (post_api_capsules_create rt env sv req w) in
  now w' = now w /\ redis w' = redis w /\ bucket w' = bucket w
  /\ exists calls, log w' = (log w ++ calls)%list
                   /\ Forall (fun c => exists doc, c = CapsuleSave doc) calls.
Proof.
  cbv zeta.
  destruct (create_route_cases req w) as [H | [H | [verified H]]]; rewrite H.
  - cbn. repeat split. exists []. split; [now rewrite app_nil_r | constructor].
  - cbn. repeat split. exists []. split; [now rewrite app_nil_r | constructor].
  - rewrite create_handler_run. cbv zeta.
    destruct (fault sv (CapsuleSave _)); cbn; repeat split;
      eexists [_]; (split; [reflexivity | repeat constructor; eauto]).
Qed.

End Create.

Section Listing.

Variable rt : Runtime.
Variable env : ProcessEnv.
Variable sv : Services.

(** A listing text is never the empty string: it opens with a bracket. *)
Lemma listing_text_truthy found : truthy (Some (listing_text found)) = true.
Proof. reflexivity. Qed.

Lemma listing_empty_text : listing_text [] = "[]".
Proof. reflexivity. Qed.

Lemma list_handler_get_throws verified w err :
  fault sv (RedisGet (cacheKey_of verified)) = Some err ->
  list_handler rt sv verified w
  = (Sent server_error, logged (RedisGet (cacheKey_of verified)) w).
Proof.
  intros Hget. unfold list_handler, try_catch, bind, redisClient_get, send.
  now rewrite Hget.
Qed.

Lemma list_handler_hit verified w data :
  fault sv (RedisGet (cacheKey_of verified)) = None ->
  cached (cacheKey_of verified) w = Some data -> data <> EmptyString ->
  list_handler rt sv verified w
  = (Sent match JSON_parse rt data with
          | Returned parsed => ok parsed
          | Thrown _ => server_error
          end,
     logged (RedisGet (cacheKey_of verified)) w).
Proof.
  intros Hget Hdata Hne.
  unfold list_handler, try_catch, bind, redisClient_get, send.
  rewrite Hget.
  change (cached (cacheKey_of verified) (logged _ w))
    with (cached (cacheKey_of verified) w).
  rewrite Hdata, (if_truthy_yes _ _ _ Hne). unfold lift, ret.
  destruct (JSON_parse rt data); reflexivity.
Qed.

Lemma list_handler_miss verified w :
  let key := cacheKey_of verified in
  let found := owned_by (id verified) (capsules w) in
  let find := CapsuleFind (id verified) in
  let setEx := RedisSetEx key 3600 (listing_text found) in
  let w2 := logged find (logged (RedisGet key) w) in
  fault sv (RedisGet key) = None ->
  truthy (cached key w) = false ->
  list_handler rt sv verified w =
    match fault sv find with
    | Some _ => (Sent server_error, w2)
    | None =>
        match fault sv setEx with
        | Some _ => (Sent server_error, logged setEx w2)
        | None =>
            (Sent (ok (JArr (List.map toJSON found))),
             set_redis (<[key := (listing_text found, now w + 3600)]> (redis w))
                       (logged setEx w2))
        end
    end.
Proof.
  cbv zeta. intros Hget Hmiss.
  unfold list_handler, try_catch, bind, redisClient_get, send.
  rewrite Hget.
  change (cached (cacheKey_of verified) (logged _ w))
    with (cached (cacheKey_of verified) w).
  rewrite (if_truthy_no _ _ _ Hmiss).
  unfold Capsule_find, redisClient_setEx, send, listing_text. cbn.
  destruct (fault sv (CapsuleFind _)); [reflexivity |]. cbn.
  destruct (fault sv (RedisSetEx _ _ _)); reflexivity.
Qed.

Lemma cached_elapse_create req key d w :
  cached key (elapse d (snd (post_api_capsules_create rt env sv req w)))
  = cached key (elapse d w).
Proof.
  destruct (create_route_frame rt env sv req w) as (Hnow & Hredis & _).
  unfold cached, elapse. cbn. now rewrite Hnow, Hredis.
Qed.

End Listing.

(** C2. A create request that is authenticated and whose save does not
    throw is answered 201, and stores exactly one new record whose owner
    is the id of the verified token and whose other fields are the body's.
    The body's own user member plays no part: two requests with the same
    header that agree on every member but user run identically. *)
Theorem create_owner_is_caller rt env sv req w verified :
  authenticated rt env req (now w) verified ->
  fault sv (CapsuleSave (doc_of verified req)) = None ->
  let reply := fst (post_api_capsules_create rt env sv req w) in
  let w' := snd (post_api_capsules_create rt env sv req w) in
  (exists res, reply = Sent res /\ status res = 201)
  /\ (exists c, capsules w' = (capsules w ++ [c])%list
                /\ user (fields c) = id verified
                /\ title (fields c) = prop "title" (body req)
                /\ content (fields c) = prop "content" (body req)
                /\ media (fields c) = prop "media" (body req)
                /\ releaseDate (fields c) = prop "releaseDate" (body req))
  /\ (forall req2,
         Authorization req2 = Authorization req ->
         (forall name, name <> "user" -> prop name (body req2) = prop name (body req)) ->
         post_api_capsules_create rt env sv req2 w
         = post_api_capsules_create rt env sv req w).
Proof.
  intros Hauth Hsave. cbv zeta.
  assert (Hrun : post_api_capsules_create rt env sv req w
                 = (Sent capsule_created,
                    set_capsules (capsules w ++ [stored_in w (doc_of verified req)])
                                 (S (next_id w))
                                 (logged (CapsuleSave (doc_of verified req)) w))).
  { unfold post_api_capsules_create.
    rewrite (authenticateToken_passes _ _ _ _ _ _ Hauth), create_handler_run.
    cbv zeta. now rewrite Hsave. }
  rewrite Hrun. cbn. split; [now exists capsule_created |].
  split; [eexists; split; [reflexivity |]; cbn; now repeat split |].
  intros req2 Hhdr Hbody.
  assert (Hauth2 : authenticated rt env req2 (now w) verified).
  { destruct Hauth as (token & H1 & H2 & H3). exists token. now rewrite Hhdr. }
  assert (Hdoc : doc_of verified req2 = doc_of verified req).
  { unfold doc_of. now rewrite !Hbody by discriminate. }
  unfold post_api_capsules_create.
  rewrite (authenticateToken_passes _ _ _ _ _ _ Hauth2), create_handler_run.
  cbv zeta. now rewrite Hdoc, Hsave.
Qed.

(** C9. The same create request sent twice, authenticated both times and
    with a save that does not throw: both are answered 201, the store
    gains two records with the same fields and different identifiers,
    and the only calls sent are the two saves: nothing looks for an
    earlier copy. *)
Theorem create_twice_stores_two rt env sv req w verified d :
  authenticated rt env req (now w) verified ->
  authenticated rt env req (now w + d) verified ->
  fault sv (CapsuleSave (doc_of verified req)) = None ->
  let first := post_api_capsules_create rt env sv req w in
  let second := post_api_capsules_create rt env sv req (elapse d (snd first)) in
  (exists res1 res2, fst first = Sent res1 /\ status res1 = 201
                     /\ fst second = Sent res2 /\ status res2 = 201)
  /\ (exists c1 c2, capsules (snd second) = (capsules w ++ [c1; c2])%list
                    /\ fields c1 = doc_of verified req
                    /\ fields c2 = doc_of verified req
                    /\ _id c1 <> _id c2 /\ c1 <> c2)
  /\ log (snd second)
     = (log w ++ [CapsuleSave (doc_of verified req);
                  CapsuleSave (doc_of verified req)])%list.
Proof.
  intros Hauth1 Hauth2 Hsave. cbv zeta.
  assert (Hrun1 : post_api_capsules_create rt env sv req w
                  = (Sent capsule_created,
                     set_capsules (capsules w ++ [stored_in w (doc_of verified req)])
                                  (S (next_id w))
                                  (logged (CapsuleSave (doc_of verified req)) w))).
  { unfold post_api_capsules_create.
    rewrite (authenticateToken_passes _ _ _ _ _ _ Hauth1), create_handler_run.
    cbv zeta. now rewrite Hsave. }
  rewrite Hrun1. cbn [fst snd].
  unfold post_api_capsules_create.
  rewrite (authenticateToken_passes rt env req _ _ verified) by exact Hauth2.
  rewrite create_handler_run. cbv zeta. rewrite Hsave. cbn.
  split; [exists capsule_created, capsule_created; now repeat split |].
  split.
  - eexists _, _. split; [now rewrite <- app_assoc |].
    unfold stored_in. cbn. repeat split; [lia |].
    intros Heq. apply (f_equal _id) in Heq. cbn in Heq. lia.
  - now rewrite <- app_assoc.
Qed.

(** C8. A create request, whatever it is and however it ends, sends no
    call to the cache and leaves every cache entry as it was. Hence a
    listing that follows it while a non-empty cached snapshot is still
    alive returns that snapshot, taken before the create, and does not
    ask the store. *)
Theorem create_leaves_cache_alone rt env sv req w :
  let w' := snd (post_api_capsules_create rt env sv req w) in
  redis w' = redis w
  /\ (forall key, cached key w' = cached key w)
  /\ (exists calls, log w' = (log w ++ calls)%list
                    /\ List.filter is_cache_call calls = [])
  /\ (forall list_req lister d data parsed,
         authenticated rt env list_req (now w + d) lister ->
         fault sv (RedisGet ("capsules_" +:+ id lister)) = None ->
         cached ("capsules_" +:+ id lister) (elapse d w) = Some data ->
         data <> EmptyString ->
         JSON_parse rt data = Returned parsed ->
         fst (get_api_capsules rt env sv list_req (elapse d w')) = Sent (ok parsed)
         /\ log (snd (get_api_capsules rt env sv list_req (elapse d w')))
            = (log w' ++ [RedisGet ("capsules_" +:+ id lister)])%list).
Proof.
  cbv zeta.
  destruct (create_route_frame rt env sv req w) as (Hnow & Hredis & _ & calls & Hlog & Hcalls).
  split; [exact Hredis |].
  split; [intros key; unfold cached; now rewrite Hnow, Hredis |].
  split.
  - exists calls. split; [exact Hlog |].
    clear Hlog. induction Hcalls as [| c calls (doc & ->) _ IH]; [reflexivity | exact IH].
  - intros list_req lister d data parsed Hauth Hget Hdata Hne Hparse.
    unfold get_api_capsules.
    rewrite (authenticateToken_passes rt env list_req _ _ lister)
      by (cbn; now rewrite Hnow).
    rewrite (list_handler_hit rt sv lister _ data Hget); [| | exact Hne].
    + rewrite Hparse. split; reflexivity.
    + now rewrite cached_elapse_create.
Qed.

(** C1. An authenticated listing request first asks the cache for the key
    capsules_ followed by the caller's id. If the cache holds a value
    under the key, the answer is 200 with what JSON.parse makes of that
    value and no other call is sent: the store is not asked. If the cache
    holds no value, the store is asked for the caller's capsules, their
    JSON text is written under the key with expiry 3600 seconds, and the
    answer is 200 with the capsules just read. The calls are taken to
    return, and JSON.parse to reject the empty text, which is not JSON. *)
Theorem listing_cache_aside rt env sv req w verified :
  authenticated rt env req (now w) verified ->
  (exists err, JSON_parse rt EmptyString = Thrown err) ->
  let key := "capsules_" +:+ id verified in
  let found := owned_by (id verified) (capsules w) in
  let text := JSON.stringify (JArr (List.map toJSON found)) in
  let reply := fst (get_api_capsules rt env sv req w) in
  let w' := snd (get_api_capsules rt env sv req w) in
  (exists rest, log w' = (log w ++ RedisGet key :: rest)%list)
  /\ (forall data parsed,
         fault sv (RedisGet key) = None ->
         cached key w = Some data ->
         JSON_parse rt data = Returned parsed ->
         reply = Sent {| status := 200; json := parsed |}
         /\ log w' = (log w ++ [RedisGet key])%list
         /\ redis w' = redis w)
  /\ (fault sv (RedisGet key) = None ->
      cached key w = None ->
      fault sv (CapsuleFind (id verified)) = None ->
      fault sv (RedisSetEx key 3600 text) = None ->
      reply = Sent {| status := 200; json := JArr (List.map toJSON found) |}
      /\ log w' = (log w ++ [RedisGet key; CapsuleFind (id verified);
                             RedisSetEx key 3600 text])%list
      /\ redis w' = <[key := (text, now w + 3600)]> (redis w)
      /\ cached key w' = Some text).
Proof.
  intros Hauth [perr Hempty]. cbv zeta. unfold get_api_capsules.
  rewrite (authenticateToken_passes _ _ _ _ _ _ Hauth).
  fold (cacheKey_of verified). fold (listing_text (owned_by (id verified) (capsules w))).
  split; [| split].
  - destruct (fault sv (RedisGet (cacheKey_of verified))) as [err|] eqn:Hget.
    + rewrite (list_handler_get_throws _ _ _ _ _ Hget). now exists [].
    + destruct (truthy (cached (cacheKey_of verified) w)) eqn:Htruthy.
      * destruct (cached (cacheKey_of verified) w) as [data|] eqn:Hdata;
          [| discriminate].
        apply truthy_Some in Htruthy.
        rewrite (list_handler_hit _ _ _ _ _ Hget Hdata Htruthy). now exists [].
      * rewrite (list_handler_miss _ _ _ _ Hget Htruthy). cbv zeta.
        destruct (fault sv (CapsuleFind _)); [eexists [_]; cbn; now rewrite <- app_assoc |].
        destruct (fault sv (RedisSetEx _ _ _));
          eexists [_; _]; cbn; now rewrite <- !app_assoc.
  - intros data parsed Hget Hdata Hparse.
    assert (Hne : data <> EmptyString).
    { intros ->. rewrite Hempty in Hparse. discriminate Hparse. }
    rewrite (list_handler_hit _ _ _ _ _ Hget Hdata Hne), Hparse.
    repeat split.
  - intros Hget Hnone Hfind Hset.
    assert (Hmiss : truthy (cached (cacheKey_of verified) w) = false)
      by now rewrite Hnone.
    rewrite (list_handler_miss _ _ _ _ Hget Hmiss). cbv zeta.
    rewrite Hfind, Hset. cbn [fst snd].
    split; [reflexivity |]. split; [cbn; now rewrite <- !app_assoc |].
    split; [reflexivity |].
    unfold cached. cbn. rewrite lookup_insert_eq.
    destruct (Z.ltb_spec (now w) (now w + 3600)); [reflexivity | lia].
Qed.

(** C7. An authenticated listing request where the cache get returns
    nothing usable, the store query returns, and the cache write throws:
    the answer is 500 Server error, the very answer given when the store
    query itself throws, although the log shows the store was read and
    the records read are not in the answer. *)
Theorem listing_cache_write_failure rt env sv req w verified err :
  authenticated rt env req (now w) verified ->
  let key := "capsules_" +:+ id verified in
  let found := owned_by (id verified) (capsules w) in
  let text := JSON.stringify (JArr (List.map toJSON found)) in
  fault sv (RedisGet key) = None ->
  truthy (cached key w) = false ->
  fault sv (CapsuleFind (id verified)) = None ->
  fault sv (RedisSetEx key 3600 text) = Some err ->
  let reply := fst (get_api_capsules rt env sv req w) in
  let w' := snd (get_api_capsules rt env sv req w) in
  reply = Sent {| status := 500; json := JObj [("message", JStr "Server error")] |}
  /\ reply <> Sent {| status := 200; json := JArr (List.map toJSON found) |}
  /\ log w' = (log w ++ [RedisGet key; CapsuleFind (id verified);
                         RedisSetEx key 3600 text])%list
  /\ redis w' = redis w
  /\ (forall sv2 err2,
         fault sv2 (RedisGet key) = None ->
         fault sv2 (CapsuleFind (id verified)) = Some err2 ->
         fst (get_api_capsules rt env sv2 req w) = reply).
Proof.
  intros Hauth. cbv zeta. intros Hget Hmiss Hfind Hset. unfold get_api_capsules.
  rewrite !(authenticateToken_passes _ _ _ _ _ _ Hauth).
  fold (cacheKey_of verified) in *.
  fold (listing_text (owned_by (id verified) (capsules w))) in *.
  rewrite (list_handler_miss _ _ _ _ Hget Hmiss). cbv zeta.
  rewrite Hfind, Hset. cbn [fst snd].
  split; [reflexivity |]. split; [discriminate |].
  split; [cbn; now rewrite <- !app_assoc |]. split; [reflexivity |].
  intros sv2 err2 Hget2 Hfind2.
  rewrite (authenticateToken_passes _ _ _ _ _ _ Hauth).
  rewrite (list_handler_miss _ _ _ _ Hget2 Hmiss). cbv zeta.
  now rewrite Hfind2.
Qed.

(** C10. A caller who owns no capsule, an empty cache entry, no call
    throwing. The first listing answers the empty list and stores its
    JSON text, the two characters of an empty array, under the caller's
    key. That text is not the empty string, so a second listing less than
    3600 seconds later takes the cached branch: it answers the empty list
    parsed from the cache and sends the cache get only, no store query. *)
Theorem empty_listing_is_cached rt env sv req w verified d :
  authenticated rt env req (now w) verified ->
  authenticated rt env req (now w + d) verified ->
  let key := "capsules_" +:+ id verified in
  owned_by (id verified) (capsules w) = [] ->
  truthy (cached key w) = false ->
  fault sv (RedisGet key) = None ->
  fault sv (CapsuleFind (id verified)) = None ->
  fault sv (RedisSetEx key 3600 "[]") = None ->
  0 <= d < 3600 ->
  JSON_parse rt "[]" = Returned (JArr []) ->
  let first := get_api_capsules rt env sv req w in
  let second := get_api_capsules rt env sv req (elapse d (snd first)) in
  fst first = Sent {| status := 200; json := JArr [] |}
  /\ JSON.stringify (JArr []) = "[]"
  /\ truthy (Some "[]") = true
  /\ cached key (elapse d (snd first)) = Some "[]"
  /\ fst second = Sent {| status := 200; json := JArr [] |}
  /\ log (snd second) = (log (snd first) ++ [RedisGet key])%list
  /\ capsules (snd second) = capsules w.
Proof.
  intros Hauth1 Hauth2. cbv zeta. intros Hnone Hmiss Hget Hfind Hset Hd Hparse.
  fold (cacheKey_of verified) in *.
  assert (Hfirst : get_api_capsules rt env sv req w
                   = (Sent (ok (JArr [])),
                      set_redis (<[cacheKey_of verified := ("[]", now w + 3600)]> (redis w))
                        (logged (RedisSetEx (cacheKey_of verified) 3600 "[]")
                           (logged (CapsuleFind (id verified))
                              (logged (RedisGet (cacheKey_of verified)) w))))).
  { unfold get_api_capsules.
    rewrite (authenticateToken_passes _ _ _ _ _ _ Hauth1).
    rewrite (list_handler_miss _ _ _ _ Hget Hmiss). cbv zeta.
    rewrite Hnone. change (listing_text []) with "[]".
    now rewrite Hfind, Hset. }
  rewrite Hfirst. cbn [fst snd].
  set (w1 := set_redis _ _).
  assert (Hcached : cached (cacheKey_of verified) (elapse d w1) = Some "[]").
  { unfold cached, elapse, w1. cbn. rewrite lookup_insert_eq.
    destruct (Z.ltb_spec (now w + d) (now w + 3600)); [reflexivity | lia]. }
  split; [reflexivity |]. split; [reflexivity |]. split; [reflexivity |].
  split; [exact Hcached |].
  unfold get_api_capsules.
  rewrite (authenticateToken_passes rt env req _ _ verified) by exact Hauth2.
  rewrite (list_handler_hit rt sv verified _ "[]" Hget Hcached) by discriminate.
  rewrite Hparse. repeat split.
Qed.

(* ===================================================================== *)
(* The properties on concrete requests                                   *)
(* ===================================================================== *)

(** A request without the header is answered 401 and one with a forged
    token 400, on all three routes. *)
Lemma protected_routes_deny_access_witness :
  Forall (fun route => route Scenario.no_header_req Scenario.fresh
                       = (Sent access_denied, Scenario.fresh))
         (protected_routes Reference.runtime Scenario.env Scenario.healthy)
  /\ Forall (fun route => route Scenario.forged_req Scenario.fresh
                          = (Sent invalid_token, Scenario.fresh))
            (protected_routes Reference.runtime Scenario.env Scenario.healthy).
Proof.
  split.
  - apply (protected_routes_deny_access Reference.runtime Scenario.env
             Scenario.healthy Scenario.no_header_req Scenario.fresh).
    left. reflexivity.
  - apply (protected_routes_deny_access Reference.runtime Scenario.env
             Scenario.healthy Scenario.forged_req Scenario.fresh).
    exists "guess.alice", {| message := "invalid signature" |}.
    split; [reflexivity | split; [discriminate | reflexivity]].
Defined.

(** The empty Authorization header: the header is there, jwt.verify would
    throw on its value, and all three routes answer 401, not 400. *)
Lemma empty_header_is_answered_401 :
  Authorization Scenario.empty_header_req = Some EmptyString
  /\ jwt_verify Reference.runtime EmptyString (JWT_SECRET Scenario.env)
                (now Scenario.fresh)
     = Thrown {| message := "jwt must be provided" |}
  /\ Forall (fun route =>
               exists res, fst (route Scenario.empty_header_req Scenario.fresh) = Sent res
                           /\ status res = 401 /\ status res <> 400)
            (protected_routes Reference.runtime Scenario.env Scenario.healthy).
Proof.
  split; [reflexivity |]. split; [reflexivity |].
  repeat constructor; exists access_denied; repeat split; discriminate.
Qed.

Lemma upload_without_file_witness :
  post_api_upload Reference.runtime Scenario.env Scenario.healthy
                  Scenario.upload_nothing_req Scenario.fresh
  = (Sent no_file_uploaded, Scenario.fresh).
Proof.
  apply (upload_without_file Reference.runtime Scenario.env Scenario.healthy
           Scenario.upload_nothing_req Scenario.fresh Scenario.alice).
  - alice_is_authenticated.
  - reflexivity.
Defined.

(** One file part named file, with an empty filename: multer drops it, the
    handler sees no file, answers 400 and sends no call. *)
Lemma unnamed_file_part_is_answered_400 :
  authenticated Reference.runtime Scenario.env Outage.unnamed_upload_req
                (now Scenario.fresh) Scenario.alice
  /\ parts Outage.unnamed_upload_req = [Outage.unnamed_part]
  /\ fieldname Outage.unnamed_part = "file"
  /\ post_api_upload Reference.runtime Scenario.env Scenario.healthy
                     Outage.unnamed_upload_req Scenario.fresh
     = (Sent no_file_uploaded, Scenario.fresh)
  /\ log (snd (post_api_upload Reference.runtime Scenario.env Scenario.healthy
                 Outage.unnamed_upload_req Scenario.fresh)) = [].
Proof.
  split; [alice_is_authenticated |]. repeat split.
Qed.

Lemma upload_one_file_witness :
  fst (post_api_upload Reference.runtime Scenario.env Scenario.healthy
                       Scenario.upload_req Scenario.fresh)
  = Sent {| status := 200;
            json := JObj [("fileUrl",
                           JStr "https://capsule-media.s3.eu-west-1.amazonaws.com/0b5c2f9e-7a41-4c1d-9e57-3d2a6f10c4b0.JPG");
                          ("detectedLabels",
                           JArr [JStr "Dog"; JStr "Beach"; JStr "Dog"; JStr "Animal"])] |}.
Proof.
  apply (upload_one_file Reference.runtime Scenario.env Scenario.healthy
           Scenario.upload_req Scenario.fresh Scenario.alice Scenario.photo).
  - alice_is_authenticated.
  - reflexivity.
  - reflexivity.
  - discriminate.
  - reflexivity.
  - reflexivity.
Defined.

Lemma upload_failure_witness :
  fst (post_api_upload Reference.runtime Scenario.env Scenario.detector_down
                       Scenario.upload_req Scenario.fresh)
  = Sent {| status := 500;
            json := JObj [("message", JStr "Upload failed");
                          ("error", JStr "Invalid image format")] |}
  /\ bucket (snd (post_api_upload Reference.runtime Scenario.env Scenario.detector_down
                                  Scenario.upload_req Scenario.fresh))
     !! "0b5c2f9e-7a41-4c1d-9e57-3d2a6f10c4b0.JPG"
     = Some (buffer Scenario.photo, "image/jpeg").
Proof.
  destruct (upload_failure Reference.runtime Scenario.env Scenario.detector_down
              Scenario.upload_req Scenario.fresh Scenario.alice Scenario.photo
              {| message := "Invalid image format" |}) as (Hreply & _ & Horphan).
  - alice_is_authenticated.
  - reflexivity.
  - reflexivity.
  - discriminate.
  - right. split; reflexivity.
  - split; [exact Hreply | exact (Horphan eq_refl)].
Defined.

(** The spec's example body, sent by alice with a user member naming
    someone else: the record is alice's. *)
Lemma create_owner_is_caller_witness :
  exists c,
    capsules (snd (post_api_capsules_create Reference.runtime Scenario.env
                     Scenario.healthy Scenario.create_req Scenario.fresh))
    = [c] /\ user (fields c) = "alice"
    /\ prop "user" (body Scenario.create_req) = Some (JStr "mallory").
Proof.
  destruct (create_owner_is_caller Reference.runtime Scenario.env Scenario.healthy
              Scenario.create_req Scenario.fresh Scenario.alice)
    as (_ & (c & Hstore & Huser & _) & _).
  - alice_is_authenticated.
  - reflexivity.
  - exists c. split; [exact Hstore |]. split; [exact Huser | reflexivity].
Defined.

Lemma create_twice_stores_two_witness :
  exists c1 c2,
    capsules (snd (post_api_capsules_create Reference.runtime Scenario.env
                     Scenario.healthy Scenario.create_req
                     (elapse 5 (snd (post_api_capsules_create Reference.runtime
                                       Scenario.env Scenario.healthy
                                       Scenario.create_req Scenario.fresh)))))
    = [c1; c2] /\ c1 <> c2.
Proof.
  destruct (create_twice_stores_two Reference.runtime Scenario.env Scenario.healthy
              Scenario.create_req Scenario.fresh Scenario.alice 5)
    as (_ & (c1 & c2 & Hstore & _ & _ & _ & Hne) & _).
  - alice_is_authenticated.
  - alice_is_authenticated.
  - reflexivity.
  - exists c1, c2. split; [exact Hstore | exact Hne].
Defined.

(** Alice's empty listing is cached; she creates a capsule; ten seconds
    later her listing is still the empty one. *)
Lemma create_leaves_cache_alone_witness :
  fst (get_api_capsules Reference.runtime Scenario.env Scenario.healthy
         Scenario.list_req
         (elapse 10 (snd (post_api_capsules_create Reference.runtime Scenario.env
                            Scenario.healthy Scenario.create_req
                            Scenario.empty_listing_cached))))
  = Sent (ok (JArr []))
  /\ length (capsules (snd (post_api_capsules_create Reference.runtime Scenario.env
                              Scenario.healthy Scenario.create_req
                              Scenario.empty_listing_cached))) = 1%nat.
Proof.
  destruct (create_leaves_cache_alone Reference.runtime Scenario.env Scenario.healthy
              Scenario.create_req Scenario.empty_listing_cached)
    as (_ & _ & _ & Hstale).
  destruct (Hstale Scenario.list_req Scenario.alice 10 "[]" (JArr [])) as (Hreply & _).
  - alice_is_authenticated.
  - reflexivity.
  - reflexivity.
  - discriminate.
  - reflexivity.
  - split; [exact Hreply | reflexivity].
Defined.

(** On a fresh world alice's listing misses, reads the store and fills
    the cache; on the world that holds her cached empty listing it is
    answered from the cache. *)
Lemma listing_cache_aside_witness :
  log (snd (get_api_capsules Reference.runtime Scenario.env Scenario.healthy
              Scenario.list_req Scenario.fresh))
  = [RedisGet "capsules_alice"; CapsuleFind "alice";
     RedisSetEx "capsules_alice" 3600 "[]"]
  /\ log (snd (get_api_capsules Reference.runtime Scenario.env Scenario.healthy
                 Scenario.list_req Scenario.empty_listing_cached))
     = [RedisGet "capsules_alice"].
Proof.
  split.
  - destruct (listing_cache_aside Reference.runtime Scenario.env Scenario.healthy
                Scenario.list_req Scenario.fresh Scenario.alice)
      as (_ & _ & Hmiss);
      [alice_is_authenticated | eexists; reflexivity |].
    exact (proj1 (proj2 (Hmiss eq_refl eq_refl eq_refl eq_refl))).
  - destruct (listing_cache_aside Reference.runtime Scenario.env Scenario.healthy
                Scenario.list_req Scenario.empty_listing_cached Scenario.alice)
      as (_ & Hhit & _);
      [alice_is_authenticated | eexists; reflexivity |].
    exact (proj1 (proj2 (Hhit "[]" (JArr []) eq_refl eq_refl eq_refl))).
Defined.

(** With a cache that refuses writes, alice's listing is answered 500,
    as it is when the store refuses the query. *)
Lemma listing_cache_write_failure_witness :
  fst (get_api_capsules Reference.runtime Scenario.env Scenario.cache_read_only
         Scenario.list_req Scenario.empty_entry)
  = Sent server_error
  /\ fst (get_api_capsules Reference.runtime Scenario.env Scenario.store_down
            Scenario.list_req Scenario.empty_entry)
     = fst (get_api_capsules Reference.runtime Scenario.env Scenario.cache_read_only
              Scenario.list_req Scenario.empty_entry).
Proof.
  destruct (listing_cache_write_failure Reference.runtime Scenario.env
              Scenario.cache_read_only Scenario.list_req Scenario.empty_entry
              Scenario.alice {| message := "READONLY" |})
    as (Hreply & _ & _ & _ & Hsame).
  - alice_is_authenticated.
  - reflexivity.
  - reflexivity.
  - reflexivity.
  - reflexivity.
  - split; [exact Hreply |].
    apply (Hsame Scenario.store_down {| message := "connection closed" |});
      reflexivity.
Defined.

Lemma empty_listing_is_cached_witness :
  fst (get_api_capsules Reference.runtime Scenario.env Scenario.healthy
         Scenario.list_req
         (elapse 3599 (snd (get_api_capsules Reference.runtime Scenario.env
                              Scenario.healthy Scenario.list_req Scenario.fresh))))
  = Sent {| status := 200; json := JArr [] |}.
Proof.
  apply (empty_listing_is_cached Reference.runtime Scenario.env Scenario.healthy
           Scenario.list_req Scenario.fresh Scenario.alice 3599).
  - alice_is_authenticated.
  - alice_is_authenticated.
  - reflexivity.
  - reflexivity.
  - reflexivity.
  - reflexivity.
  - reflexivity.
  - lia.
  - reflexivity.
Defined.

(* ===================================================================== *)
(* Further properties of the routes                                      *)
(* ===================================================================== *)

Section ListingRuns.

Variable rt : Runtime.
Variable env : ProcessEnv.
Variable sv : Services.

(** Every way the listing handler can run. *)
Lemma list_handler_run verified w :
  let key := cacheKey_of verified in
  let found := owned_by (id verified) (capsules w) in
  let find := CapsuleFind (id verified) in
  let setEx := RedisSetEx key 3600 (listing_text found) in
  let w1 := logged (RedisGet key) w in
  list_handler rt sv verified w =
    match fault sv (RedisGet key) with
    | Some _ => (Sent server_error, w1)
    | None =>
        match cached key w with
        | Some data =>
            if truthy (Some data)
            then (Sent match JSON_parse rt data with
                       | Returned parsed => ok parsed
                       | Thrown _ => server_error
                       end, w1)
            else
              match fault sv find with
              | Some _ => (Sent server_error, logged find w1)
              | None =>
                  match fault sv setEx with
                  | Some _ => (Sent server_error, logged setEx (logged find w1))
                  | None =>
                      (Sent (ok (JArr (List.map toJSON found))),
                       set_redis (<[key := (listing_text found, now w + 3600)]> (redis w))
                                 (logged setEx (logged find w1)))
                  end
              end
        | None =>
            match fault sv find with
            | Some _ => (Sent server_error, logged find w1)
            | None =>
                match fault sv setEx with
                | Some _ => (Sent server_error, logged setEx (logged find w1))
                | None =>
                    (Sent (ok (JArr (List.map toJSON found))),
                     set_redis (<[key := (listing_text found, now w + 3600)]> (redis w))
                               (logged setEx (logged find w1)))
                end
            end
        end
    end.
Proof.
  cbv zeta.
  destruct (fault sv (RedisGet (cacheKey_of verified))) as [err|] eqn:Hget.
  - apply (list_handler_get_throws _ _ _ _ _ Hget).
  - destruct (cached (cacheKey_of verified) w) as [data|] eqn:Hdata.
    + destruct (truthy (Some data)) eqn:Htruthy.
      * apply truthy_Some in Htruthy.
        apply (list_handler_hit _ _ _ _ _ Hget Hdata Htruthy).
      * rewrite <- Hdata in Htruthy.
        apply (list_handler_miss _ _ _ _ Hget Htruthy).
    + assert (Hmiss : truthy (cached (cacheKey_of verified) w) = false)
        by now rewrite Hdata.
      apply (list_handler_miss _ _ _ _ Hget Hmiss).
Qed.

(** Whatever the request, the listing route ends in one of three ways. *)
Lemma list_route_cases req w :
  get_api_capsules rt env sv req w = (Sent access_denied, w)
  \/ get_api_capsules rt env sv req w = (Sent invalid_token, w)
  \/ exists verified,
      get_api_capsules rt env sv req w = list_handler rt sv verified w.
Proof.
  unfold get_api_capsules, authenticateToken, if_truthy.
  destruct (Authorization req) as [token|]; [| now left].
  destruct (truthy (Some token)); [| now left].
  destruct (jwt_verify rt token (JWT_SECRET env) (now w)) as [verified|err].
  - right; right. now exists verified.
  - right; now left.
Qed.

Lemma get_api_capsules_authenticated req w verified :
  authenticated rt env req (now w) verified ->
  get_api_capsules rt env sv req w = list_handler rt sv verified w.
Proof.
  intros Hauth. unfold get_api_capsules.
  apply (authenticateToken_passes _ _ _ _ _ _ Hauth).
Qed.

End ListingRuns.

Lemma cacheKey_inj (a b : Verified) :
  cacheKey_of a = cacheKey_of b -> id a = id b.
Proof.
  unfold cacheKey_of. intros H. cbn in H. now repeat injection H as H.
Qed.

(** X1. An authenticated listing whose cache read throws is answered 500
    Server error. The read is the only call sent: the handler does not
    fall back on the store, and nothing in the world but the call log
    changes. *)
Theorem listing_cache_outage rt env sv req w verified err :
  authenticated rt env req (now w) verified ->
  fault sv (RedisGet ("capsules_" +:+ id verified)) = Some err ->
  let reply := fst (get_api_capsules rt env sv req w) in
  let w' := snd (get_api_capsules rt env sv req w) in
  reply = Sent {| status := 500; json := JObj [("message", JStr "Server error")] |}
  /\ log w' = (log w ++ [RedisGet ("capsules_" +:+ id verified)])%list
  /\ redis w' = redis w /\ capsules w' = capsules w.
Proof.
  intros Hauth Hget. cbv zeta.
  rewrite (get_api_capsules_authenticated _ _ _ _ _ _ Hauth).
  rewrite (list_handler_get_throws rt sv verified w err Hget).
  repeat split.
Qed.

(** X2. An authenticated listing that finds, under the caller's key, a
    non-empty text JSON.parse rejects is answered 500 Server error. The
    store is not asked and the entry is neither removed nor rewritten, so
    a listing repeated while the entry is alive is answered 500 again. *)
Theorem listing_unparsable_cache rt env sv req w verified data err d :
  authenticated rt env req (now w) verified ->
  authenticated rt env req (now w + d) verified ->
  let key := "capsules_" +:+ id verified in
  fault sv (RedisGet key) = None ->
  cached key w = Some data -> data <> EmptyString ->
  JSON_parse rt data = Thrown err ->
  cached key (elapse d w) = Some data ->
  let first := get_api_capsules rt env sv req w in
  let second := get_api_capsules rt env sv req (elapse d (snd first)) in
  fst first = Sent {| status := 500; json := JObj [("message", JStr "Server error")] |}
  /\ log (snd first) = (log w ++ [RedisGet key])%list
  /\ redis (snd first) = redis w
  /\ fst second = fst first
  /\ log (snd second) = (log w ++ [RedisGet key; RedisGet key])%list.
Proof.
  intros Hauth1 Hauth2. cbv zeta. intros Hget Hdata Hne Hparse Halive.
  fold (cacheKey_of verified) in *.
  rewrite (get_api_capsules_authenticated _ _ _ _ _ _ Hauth1).
  rewrite (list_handler_hit rt sv verified w data Hget Hdata Hne), Hparse.
  cbn [fst snd].
  rewrite (get_api_capsules_authenticated rt env sv req _ verified) by exact Hauth2.
  rewrite (list_handler_hit rt sv verified _ data Hget) by assumption.
  rewrite Hparse. cbn. rewrite <- app_assoc. repeat split.
Qed.

(** X3. An authenticated listing that misses the cache and whose store
    query throws is answered 500 Server error, and writes nothing to the
    cache: the calls are the cache read and the query, no more. *)
Theorem listing_store_failure rt env sv req w verified err :
  authenticated rt env req (now w) verified ->
  let key := "capsules_" +:+ id verified in
  fault sv (RedisGet key) = None ->
  truthy (cached key w) = false ->
  fault sv (CapsuleFind (id verified)) = Some err ->
  let reply := fst (get_api_capsules rt env sv req w) in
  let w' := snd (get_api_capsules rt env sv req w) in
  reply = Sent {| status := 500; json := JObj [("message", JStr "Server error")] |}
  /\ log w' = (log w ++ [RedisGet key; CapsuleFind (id verified)])%list
  /\ redis w' = redis w.
Proof.
  intros Hauth. cbv zeta. intros Hget Hmiss Hfind.
  fold (cacheKey_of verified) in *.
  rewrite (get_api_capsules_authenticated _ _ _ _ _ _ Hauth).
  rewrite (list_handler_miss rt sv verified w Hget Hmiss). cbv zeta.
  rewrite Hfind. cbn. rewrite <- app_assoc. repeat split.
Qed.

Lemma owned_by_app (owner : string) (cs more : list Capsule) :
  owned_by owner (cs ++ more) = (owned_by owner cs ++ owned_by owner more)%list.
Proof. unfold owned_by. apply List.filter_app. Qed.

Lemma owned_by_own (doc : CapsuleDoc) (w : World) :
  owned_by (user doc) [stored_in w doc] = [stored_in w doc].
Proof. unfold owned_by. cbn. now rewrite String.eqb_refl. Qed.

Lemma owned_by_In (owner : string) (cs : list Capsule) (c : Capsule) :
  In c (owned_by owner cs) <-> In c cs /\ user (fields c) = owner.
Proof.
  unfold owned_by. rewrite List.filter_In.
  split; intros [Hin Huser]; split; try exact Hin.
  - now apply String.eqb_eq.
  - now apply String.eqb_eq.
Qed.

Section ListingFrame.

Variable rt : Runtime.
Variable sv : Services.

(** What any run of the listing handler leaves alone, and what it can do. *)
Lemma list_handler_frame verified w :
  let key := cacheKey_of verified in
  let found := owned_by (id verified) (capsules w) in
  let reply := fst (list_handler rt sv verified w) in
  let w' := snd (list_handler rt sv verified w) in
  now w' = now w /\ capsules w' = capsules w /\ next_id w' = next_id w
  /\ bucket w' = bucket w /\ uuids_drawn w' = uuids_drawn w
  /\ (redis w' = redis w
      \/ redis w' = <[key := (listing_text found, now w + 3600)]> (redis w))
  /\ (exists calls,
         log w' = (log w ++ calls)%list
         /\ Forall (fun c => c = RedisGet key \/ c = CapsuleFind (id verified)
                             \/ c = RedisSetEx key 3600 (listing_text found)) calls)
  /\ (exists res, reply = Sent res /\ (status res = 200 \/ status res = 500)).
Proof.
  cbv zeta. rewrite list_handler_run. cbv zeta.
  destruct (fault sv (RedisGet _)).
  { cbn. refine (conj eq_refl (conj eq_refl (conj eq_refl (conj eq_refl
             (conj eq_refl (conj (or_introl eq_refl) (conj _ _))))))).
    - eexists [_]. split; [reflexivity |]. repeat (constructor; [solve [auto] |]); constructor.
    - exists server_error. cbn. auto. }
  assert (Hmiss :
    let m :=
      match fault sv (CapsuleFind (id verified)) with
      | Some _ => (Sent server_error,
                   logged (CapsuleFind (id verified))
                          (logged (RedisGet (cacheKey_of verified)) w))
      | None =>
          match fault sv (RedisSetEx (cacheKey_of verified) 3600
                            (listing_text (owned_by (id verified) (capsules w)))) with
          | Some _ =>
              (Sent server_error,
               logged (RedisSetEx (cacheKey_of verified) 3600
                         (listing_text (owned_by (id verified) (capsules w))))
                      (logged (CapsuleFind (id verified))
                              (logged (RedisGet (cacheKey_of verified)) w)))
          | None =>
              (Sent (ok (JArr (List.map toJSON (owned_by (id verified) (capsules w))))),
               set_redis (<[cacheKey_of verified :=
                              (listing_text (owned_by (id verified) (capsules w)),
                               now w + 3600)]> (redis w))
                 (logged (RedisSetEx (cacheKey_of verified) 3600
                            (listing_text (owned_by (id verified) (capsules w))))
                         (logged (CapsuleFind (id verified))
                                 (logged (RedisGet (cacheKey_of verified)) w))))
          end
      end in
    now (snd m) = now w /\ capsules (snd m) = capsules w
    /\ next_id (snd m) = next_id w
    /\ bucket (snd m) = bucket w /\ uuids_drawn (snd m) = uuids_drawn w
    /\ (redis (snd m) = redis w
        \/ redis (snd m)
           = <[cacheKey_of verified :=
                 (listing_text (owned_by (id verified) (capsules w)), now w + 3600)]>
               (redis w))
    /\ (exists calls,
           log (snd m) = (log w ++ calls)%list
           /\ Forall (fun c => c = RedisGet (cacheKey_of verified)
                               \/ c = CapsuleFind (id verified)
                               \/ c = RedisSetEx (cacheKey_of verified) 3600
                                        (listing_text
                                           (owned_by (id verified) (capsules w))))
                     calls)
    /\ (exists res, fst m = Sent res /\ (status res = 200 \/ status res = 500))).
  { cbv zeta. destruct (fault sv (CapsuleFind _)).
    - cbn. refine (conj eq_refl (conj eq_refl (conj eq_refl (conj eq_refl
               (conj eq_refl (conj (or_introl eq_refl) (conj _ _))))))).
      + eexists [_; _]. split; [now rewrite <- app_assoc |]. repeat (constructor; [solve [auto] |]); constructor.
      + exists server_error. cbn. auto.
    - destruct (fault sv (RedisSetEx _ _ _)); cbn.
      + refine (conj eq_refl (conj eq_refl (conj eq_refl (conj eq_refl
                 (conj eq_refl (conj (or_introl eq_refl) (conj _ _))))))).
        * eexists [_; _; _]. split; [now rewrite <- !app_assoc |].
          repeat (constructor; [solve [auto] |]); constructor.
        * exists server_error. cbn. auto.
      + refine (conj eq_refl (conj eq_refl (conj eq_refl (conj eq_refl
                 (conj eq_refl (conj (or_intror eq_refl) (conj _ _))))))).
        * eexists [_; _; _]. split; [now rewrite <- !app_assoc |].
          repeat (constructor; [solve [auto] |]); constructor.
        * eexists. split; [reflexivity |]. cbn. auto. }
  cbv zeta in Hmiss.
  destruct (cached (cacheKey_of verified) w) as [data|]; [| exact Hmiss].
  destruct (truthy (Some data)); [| exact Hmiss].
  cbn. refine (conj eq_refl (conj eq_refl (conj eq_refl (conj eq_refl
           (conj eq_refl (conj (or_introl eq_refl) (conj _ _))))))).
  - eexists [_]. split; [reflexivity |]. repeat (constructor; [solve [auto] |]); constructor.
  - destruct (JSON_parse rt data); eexists; (split; [reflexivity |]); cbn; auto.
Qed.

End ListingFrame.

(** X4. Two authenticated listings by one caller, less than 3600 seconds
    apart, the first on a cache miss with no call throwing. The first
    answers the caller's capsules and stores their JSON text; the second
    sends the cache read only and answers what JSON.parse makes of that
    text: 200 with the parsed value, or 500 if the parse throws. *)
Theorem listing_fill_then_hit rt env sv req w verified d :
  authenticated rt env req (now w) verified ->
  authenticated rt env req (now w + d) verified ->
  let key := "capsules_" +:+ id verified in
  let found := owned_by (id verified) (capsules w) in
  let text := JSON.stringify (JArr (List.map toJSON found)) in
  truthy (cached key w) = false ->
  fault sv (RedisGet key) = None ->
  fault sv (CapsuleFind (id verified)) = None ->
  fault sv (RedisSetEx key 3600 text) = None ->
  0 <= d < 3600 ->
  let first := get_api_capsules rt env sv req w in
  let second := get_api_capsules rt env sv req (elapse d (snd first)) in
  fst first = Sent {| status := 200; json := JArr (List.map toJSON found) |}
  /\ cached key (elapse d (snd first)) = Some text
  /\ fst second
     = Sent match JSON_parse rt text with
            | Returned parsed => {| status := 200; json := parsed |}
            | Thrown _ =>
                {| status := 500; json := JObj [("message", JStr "Server error")] |}
            end
  /\ log (snd second)
     = (log w ++ [RedisGet key; CapsuleFind (id verified);
                  RedisSetEx key 3600 text; RedisGet key])%list.
Proof.
  intros Hauth1 Hauth2. cbv zeta. intros Hmiss Hget Hfind Hset Hd.
  fold (cacheKey_of verified) in *.
  fold (listing_text (owned_by (id verified) (capsules w))) in *.
  rewrite (get_api_capsules_authenticated _ _ _ _ _ _ Hauth1).
  rewrite (list_handler_miss rt sv verified w Hget Hmiss). cbv zeta.
  rewrite Hfind, Hset. cbn [fst snd].
  set (w1 := set_redis _ _).
  assert (Hcached : cached (cacheKey_of verified) (elapse d w1)
                    = Some (listing_text (owned_by (id verified) (capsules w)))).
  { unfold cached, elapse, w1. cbn. rewrite lookup_insert_eq.
    destruct (Z.ltb_spec (now w + d) (now w + 3600)); [reflexivity | lia]. }
  split; [reflexivity |]. split; [exact Hcached |].
  rewrite (get_api_capsules_authenticated rt env sv req _ verified) by exact Hauth2.
  rewrite (list_handler_hit rt sv verified _ _ Hget Hcached) by discriminate.
  cbn [fst snd]. split.
  - destruct (JSON_parse rt _); reflexivity.
  - unfold w1. cbn. now rewrite <- !app_assoc.
Qed.

(** X5. A create that succeeds, then a listing by the same caller that
    misses the cache, with no call throwing: the listing answers the
    capsules the caller owned before, followed by the one just created,
    whose owner is the caller and whose fields are the create body's. *)
Theorem create_then_cold_listing rt env sv create_req list_req w verified :
  authenticated rt env create_req (now w) verified ->
  authenticated rt env list_req (now w) verified ->
  let key := "capsules_" +:+ id verified in
  let doc := doc_of verified create_req in
  let created := {| _id := next_id w; fields := doc; createdAt := now w |} in
  let found := (owned_by (id verified) (capsules w) ++ [created])%list in
  let text := JSON.stringify (JArr (List.map toJSON found)) in
  fault sv (CapsuleSave doc) = None ->
  truthy (cached key w) = false ->
  fault sv (RedisGet key) = None ->
  fault sv (CapsuleFind (id verified)) = None ->
  fault sv (RedisSetEx key 3600 text) = None ->
  let w1 := snd (post_api_capsules_create rt env sv create_req w) in
  let listing := get_api_capsules rt env sv list_req w1 in
  fst listing = Sent {| status := 200; json := JArr (List.map toJSON found) |}
  /\ cached key (snd listing) = Some text.
Proof.
  intros Hauthc Hauthl. cbv zeta. intros Hsave Hmiss Hget Hfind Hset.
  fold (cacheKey_of verified) in *.
  fold (stored_in w (doc_of verified create_req)) in *.
  unfold post_api_capsules_create.
  rewrite (authenticateToken_passes _ _ _ _ _ _ Hauthc), create_handler_run.
  cbv zeta. rewrite Hsave. cbn [snd].
  set (w1 := set_capsules _ _ _).
  assert (Hfound : owned_by (id verified) (capsules w1)
                   = (owned_by (id verified) (capsules w)
                      ++ [stored_in w (doc_of verified create_req)])%list).
  { unfold w1. cbn [capsules set_capsules]. rewrite owned_by_app.
    f_equal. exact (owned_by_own (doc_of verified create_req) w). }
  rewrite (get_api_capsules_authenticated rt env sv list_req w1 verified)
    by exact Hauthl.
  rewrite (list_handler_miss rt sv verified w1 Hget) by exact Hmiss.
  cbv zeta. rewrite Hfound. unfold listing_text. rewrite Hfind, Hset.
  cbn [fst snd]. split; [reflexivity |].
  unfold cached. cbn. rewrite lookup_insert_eq.
  destruct (Z.ltb_spec (now w) (now w + 3600)); [reflexivity | lia].
Qed.

(** X6. A listing that filled the cache, and a second one by the same
    caller 3600 seconds later or more, with no call throwing: the entry
    has expired, so the second listing asks the store again, answers the
    capsules read, and writes the entry anew with a fresh expiry. *)
Theorem listing_after_expiry rt env sv req w verified d :
  authenticated rt env req (now w) verified ->
  authenticated rt env req (now w + d) verified ->
  let key := "capsules_" +:+ id verified in
  let found := owned_by (id verified) (capsules w) in
  let text := JSON.stringify (JArr (List.map toJSON found)) in
  truthy (cached key w) = false ->
  fault sv (RedisGet key) = None ->
  fault sv (CapsuleFind (id verified)) = None ->
  fault sv (RedisSetEx key 3600 text) = None ->
  3600 <= d ->
  let first := get_api_capsules rt env sv req w in
  let second := get_api_capsules rt env sv req (elapse d (snd first)) in
  cached key (elapse d (snd first)) = None
  /\ fst second = Sent {| status := 200; json := JArr (List.map toJSON found) |}
  /\ log (snd second)
     = (log (snd first) ++ [RedisGet key; CapsuleFind (id verified);
                            RedisSetEx key 3600 text])%list
  /\ redis (snd second) !! key = Some (text, now w + d + 3600).
Proof.
  intros Hauth1 Hauth2. cbv zeta. intros Hmiss Hget Hfind Hset Hd.
  fold (cacheKey_of verified) in *.
  fold (listing_text (owned_by (id verified) (capsules w))) in *.
  rewrite (get_api_capsules_authenticated _ _ _ _ _ _ Hauth1).
  rewrite (list_handler_miss rt sv verified w Hget Hmiss). cbv zeta.
  rewrite Hfind, Hset. cbn [fst snd].
  set (w1 := set_redis _ _).
  assert (Hgone : cached (cacheKey_of verified) (elapse d w1) = None).
  { unfold cached, elapse, w1. cbn. rewrite lookup_insert_eq.
    destruct (Z.ltb_spec (now w + d) (now w + 3600)); [lia | reflexivity]. }
  split; [exact Hgone |].
  rewrite (get_api_capsules_authenticated rt env sv req _ verified) by exact Hauth2.
  rewrite (list_handler_miss rt sv verified (elapse d w1) Hget)
    by now rewrite Hgone.
  cbv zeta.
  change (capsules (elapse d w1)) with (capsules w).
  rewrite Hfind, Hset. cbn [fst snd].
  split; [reflexivity |]. split.
  - cbn. now rewrite <- !app_assoc.
  - cbn. apply lookup_insert_eq.
Qed.

(** X7. On a cache miss with no call throwing, an authenticated listing
    answers exactly the caller's capsules: a stored capsule is in the
    answer if and only if its owner is the caller's id. *)
Theorem listing_owner_only rt env sv req w verified :
  authenticated rt env req (now w) verified ->
  let key := "capsules_" +:+ id verified in
  truthy (cached key w) = false ->
  fault sv (RedisGet key) = None ->
  fault sv (CapsuleFind (id verified)) = None ->
  fault sv (RedisSetEx key 3600
              (JSON.stringify
                 (JArr (List.map toJSON (owned_by (id verified) (capsules w))))))
  = None ->
  exists answered,
    fst (get_api_capsules rt env sv req w)
    = Sent {| status := 200; json := JArr (List.map toJSON answered) |}
    /\ forall c, In c answered <-> In c (capsules w) /\ user (fields c) = id verified.
Proof.
  intros Hauth. cbv zeta. intros Hmiss Hget Hfind Hset.
  fold (cacheKey_of verified) in *.
  fold (listing_text (owned_by (id verified) (capsules w))) in *.
  exists (owned_by (id verified) (capsules w)).
  rewrite (get_api_capsules_authenticated _ _ _ _ _ _ Hauth).
  rewrite (list_handler_miss rt sv verified w Hget Hmiss). cbv zeta.
  rewrite Hfind, Hset. split; [reflexivity |].
  intros c. apply owned_by_In.
Qed.

(** X8. An authenticated listing, however it ends, changes no cache entry
    but the caller's own: every other key reads as before, so the cached
    listing of a caller with a different id is untouched. *)
Theorem listing_cache_isolation rt env sv req w verified :
  authenticated rt env req (now w) verified ->
  let w' := snd (get_api_capsules rt env sv req w) in
  (forall key, key <> "capsules_" +:+ id verified ->
               redis w' !! key = redis w !! key)
  /\ (forall other : Verified,
         id other <> id verified ->
         cached ("capsules_" +:+ id other) w' = cached ("capsules_" +:+ id other) w).
Proof.
  intros Hauth. cbv zeta.
  rewrite (get_api_capsules_authenticated _ _ _ _ _ _ Hauth).
  destruct (list_handler_frame rt sv verified w)
    as (Hnow & _ & _ & _ & _ & Hredis & _).
  assert (Hkeys : forall key, key <> cacheKey_of verified ->
                    redis (snd (list_handler rt sv verified w)) !! key
                    = redis w !! key).
  { intros key Hne. destruct Hredis as [-> | ->]; [reflexivity |].
    now apply lookup_insert_ne. }
  split; [exact Hkeys |].
  intros other Hother. unfold cached. rewrite Hnow.
  rewrite (Hkeys ("capsules_" +:+ id other)); [reflexivity |].
  intros Heq. apply Hother. now apply cacheKey_inj.
Qed.

(** X9. The listing route, on any request and however it ends, leaves
    the capsule collection and the bucket as they were, and sends only
    cache reads, store queries and cache writes with expiry 3600: never a
    save, a put, a delete or a detection. *)
Theorem listing_only_reads_the_store rt env sv req w :
  let w' := snd (get_api_capsules rt env sv req w) in
  capsules w' = capsules w /\ next_id w' = next_id w /\ bucket w' = bucket w
  /\ exists calls,
      log w' = (log w ++ calls)%list
      /\ Forall (fun c => (exists key, c = RedisGet key)
                          \/ (exists owner, c = CapsuleFind owner)
                          \/ (exists key text, c = RedisSetEx key 3600 text)) calls.
Proof.
  cbv zeta.
  destruct (list_route_cases rt env sv req w) as [H | [H | [verified H]]]; rewrite H.
  - cbn. repeat (split; [reflexivity |]).
    exists []. split; [now rewrite app_nil_r | constructor].
  - cbn. repeat (split; [reflexivity |]).
    exists []. split; [now rewrite app_nil_r | constructor].
  - destruct (list_handler_frame rt sv verified w)
      as (_ & Hcaps & Hid & Hbucket & _ & _ & (calls & Hlog & Hcalls) & _).
    split; [exact Hcaps |]. split; [exact Hid |].
    split; [exact Hbucket |].
    exists calls. split; [exact Hlog |].
    eapply Forall_impl; [exact Hcalls |].
    intros c [-> | [-> | ->]]; eauto.
Qed.

(* String concatenation cancels on both sides. *)

Lemma append_length (a b : string) :
  String.length (a +:+ b) = (String.length a + String.length b)%nat.
Proof.
  induction a as [| c a IH]; [reflexivity |].
  change (S (String.length (a +:+ b)) = S (String.length a + String.length b)).
  now rewrite IH.
Qed.

Lemma append_cancel_l (p a b : string) : p +:+ a = p +:+ b -> a = b.
Proof.
  induction p as [| c p IH]; intros H; [exact H |].
  change (String c (p +:+ a) = String c (p +:+ b)) in H.
  injection H as H. now apply IH.
Qed.

Lemma append_cancel_r (a b e : string) : a +:+ e = b +:+ e -> a = b.
Proof.
  revert b. induction a as [| c a IH]; intros [| c' b] H.
  - reflexivity.
  - apply (f_equal String.length) in H. rewrite !append_length in H.
    cbn in H. lia.
  - apply (f_equal String.length) in H. rewrite !append_length in H.
    cbn in H. lia.
  - change (String c (a +:+ e) = String c' (b +:+ e)) in H.
    injection H as -> H. f_equal. now apply IH.
Qed.

Section UploadRuns.

Variable rt : Runtime.
Variable env : ProcessEnv.
Variable sv : Services.

Lemma fileUrl_of_inj (k1 k2 : string) :
  fileUrl_of env k1 = fileUrl_of env k2 -> k1 = k2.
Proof.
  unfold fileUrl_of. intros H.
  repeat (apply append_cancel_l in H). exact H.
Qed.

(** Whatever the request, the upload route ends in one of five ways. *)
Lemma upload_route_cases req w :
  post_api_upload rt env sv req w = (Sent access_denied, w)
  \/ post_api_upload rt env sv req w = (Sent invalid_token, w)
  \/ post_api_upload rt env sv req w
     = (PassedOn {| message := "Unexpected field" |}, w)
  \/ post_api_upload rt env sv req w = (Sent no_file_uploaded, w)
  \/ exists file,
      In file (parts req) /\ fieldname file = "file"
      /\ originalname file <> EmptyString
      /\ post_api_upload rt env sv req w = upload_handler rt env sv (Some file) w.
Proof.
  unfold post_api_upload, authenticateToken, if_truthy.
  destruct (Authorization req) as [token|]; [| now left].
  destruct (truthy (Some token)); [| now left].
  destruct (jwt_verify rt token (JWT_SECRET env) (now w)) as [verified|err];
    [| right; now left].
  right; right. unfold upload_single.
  destruct (List.filter kept_by_multer (parts req)) as [| file [| file2 rest]]
    eqn:Hkept.
  - right; now left.
  - destruct (String.eqb_spec (fieldname file) "file") as [Hname | Hname].
    + right; right. exists file.
      assert (Hin : In file (List.filter kept_by_multer (parts req)))
        by (rewrite Hkept; now left).
      apply List.filter_In in Hin. destruct Hin as [Hin Hfilename].
      split; [exact Hin |]. split; [exact Hname |].
      split; [now apply truthy_Some | reflexivity].
    + now left.
  - now left.
Qed.

Lemma upload_route_with_file req w verified file :
  authenticated rt env req (now w) verified ->
  parts req = [file] -> fieldname file = "file" ->
  originalname file <> EmptyString ->
  post_api_upload rt env sv req w = upload_handler rt env sv (Some file) w.
Proof.
  intros Hauth Hparts Hname Hfilename. unfold post_api_upload.
  rewrite (authenticateToken_passes _ _ _ _ _ _ Hauth).
  now rewrite (upload_single_one_file _ _ _ Hparts Hname Hfilename).
Qed.

End UploadRuns.

(** X10. The upload route, on any request and however it ends, leaves the
    cache and the capsule collection as they were, and sends no call, or
    one put, or one put followed by one label detection on the very bytes
    the put stored, with MaxLabels 5. *)
Theorem upload_touches_storage_only rt env sv req w :
  let w' := snd (post_api_upload rt env sv req w) in
  redis w' = redis w /\ capsules w' = capsules w /\ next_id w' = next_id w
  /\ exists calls,
      log w' = (log w ++ calls)%list
      /\ (calls = []
          \/ (exists input, calls = [PutObject input])
          \/ (exists input, calls = [PutObject input;
                                     DetectLabels {| Image_Bytes := Body input;
                                                     MaxLabels := 5 |}])).
Proof.
  cbv zeta.
  destruct (upload_route_cases rt env sv req w)
    as [H | [H | [H | [H | (file & _ & _ & _ & H)]]]]; rewrite H.
  1-4: cbn; repeat (split; [reflexivity |]);
       exists []; split; [now rewrite app_nil_r | now left].
  rewrite upload_handler_run. cbv zeta. unfold put_of, detect_of.
  destruct (fault sv (PutObject _)).
  - cbn. repeat (split; [reflexivity |]).
    eexists [_]. split; [reflexivity |]. right; left. eauto.
  - destruct (fault sv (DetectLabels _)); cbn; repeat (split; [reflexivity |]);
      eexists [_; _]; (split; [now rewrite <- app_assoc |]);
      right; right;
      eexists {| Bucket := _; Key := _; Body := _; ContentType := _ |};
      reflexivity.
Qed.

(** X11. The upload handler uses neither the caller's identity nor the
    request body: two authenticated requests that carry the same file
    parts, whoever sends them, run identically in the same world. *)
Theorem upload_ignores_caller rt env sv req1 req2 w verified1 verified2 :
  authenticated rt env req1 (now w) verified1 ->
  authenticated rt env req2 (now w) verified2 ->
  parts req1 = parts req2 ->
  post_api_upload rt env sv req1 w = post_api_upload rt env sv req2 w.
Proof.
  intros Hauth1 Hauth2 Hparts. unfold post_api_upload.
  rewrite (authenticateToken_passes _ _ _ _ _ _ Hauth1).
  rewrite (authenticateToken_passes _ _ _ _ _ _ Hauth2).
  unfold upload_single. now rewrite Hparts.
Qed.

(** X12. The same file, one that multer keeps, uploaded twice, with no
    call throwing and randomUUID drawing two different values: the two
    puts use different
    keys, both objects are in the bucket afterwards, and the two answers
    carry different fileUrls. *)
Theorem upload_twice_keeps_both rt env sv req w verified file d :
  authenticated rt env req (now w) verified ->
  authenticated rt env req (now w + d) verified ->
  parts req = [file] -> fieldname file = "file" ->
  originalname file <> EmptyString ->
  let ext := path_extname rt (originalname file) in
  let key1 := uuid_source sv (uuids_drawn w) +:+ ext in
  let key2 := uuid_source sv (S (uuids_drawn w)) +:+ ext in
  uuid_source sv (uuids_drawn w) <> uuid_source sv (S (uuids_drawn w)) ->
  fault sv (put_of rt env (uuid_source sv (uuids_drawn w)) file) = None ->
  fault sv (put_of rt env (uuid_source sv (S (uuids_drawn w))) file) = None ->
  fault sv (detect_of file) = None ->
  let first := post_api_upload rt env sv req w in
  let second := post_api_upload rt env sv req (elapse d (snd first)) in
  key1 <> key2
  /\ bucket (snd second) !! key1 = Some (buffer file, mimetype file)
  /\ bucket (snd second) !! key2 = Some (buffer file, mimetype file)
  /\ (exists labels url1 url2,
         fst first = Sent {| status := 200;
                             json := JObj [("fileUrl", JStr url1);
                                           ("detectedLabels", labels)] |}
         /\ fst second = Sent {| status := 200;
                                 json := JObj [("fileUrl", JStr url2);
                                               ("detectedLabels", labels)] |}
         /\ url1 <> url2).
Proof.
  intros Hauth1 Hauth2 Hparts Hname Hfilename. cbv zeta.
  intros Huuid Hput1 Hput2 Hdet.
  assert (Hkeys : uuid_source sv (uuids_drawn w) +:+ path_extname rt (originalname file)
                  <> uuid_source sv (S (uuids_drawn w))
                     +:+ path_extname rt (originalname file)).
  { intros Heq. apply Huuid. now apply append_cancel_r in Heq. }
  rewrite (upload_route_with_file rt env sv req w verified file Hauth1 Hparts
             Hname Hfilename).
  rewrite upload_handler_run. cbv zeta. rewrite Hput1, Hdet. cbn [fst snd].
  rewrite (upload_route_with_file rt env sv req _ verified file)
    by assumption.
  rewrite upload_handler_run. cbv zeta. cbn [uuids_drawn logged set_bucket
    set_uuids_drawn elapse]. rewrite Hput2, Hdet. cbn [fst snd].
  split; [exact Hkeys |]. split; [| split].
  - cbn. rewrite lookup_insert_ne by congruence. apply lookup_insert_eq.
  - cbn. apply lookup_insert_eq.
  - eexists _, _, _. split; [reflexivity |]. split; [reflexivity |].
    intros Heq. apply Hkeys. now apply fileUrl_of_inj in Heq.
Qed.

(** X13. An authenticated create whose save throws is answered 500 with
    the fixed message Server error, whatever the error was, and stores
    nothing: the collection is as before, and the save is the only call
    sent. *)
Theorem create_save_failure rt env sv req w verified err :
  authenticated rt env req (now w) verified ->
  fault sv (CapsuleSave (doc_of verified req)) = Some err ->
  let reply := fst (post_api_capsules_create rt env sv req w) in
  let w' := snd (post_api_capsules_create rt env sv req w) in
  reply = Sent {| status := 500; json := JObj [("message", JStr "Server error")] |}
  /\ capsules w' = capsules w /\ next_id w' = next_id w
  /\ log w' = (log w ++ [CapsuleSave (doc_of verified req)])%list.
Proof.
  intros Hauth Hsave. cbv zeta. unfold post_api_capsules_create.
  rewrite (authenticateToken_passes _ _ _ _ _ _ Hauth), create_handler_run.
  cbv zeta. rewrite Hsave. repeat split.
Qed.


Section ServerOverTime.

Variable rt : Runtime.
Variable env : ProcessEnv.

Lemma listing_text_nonempty found : listing_text found <> EmptyString.
Proof. apply truthy_Some. apply listing_text_truthy. Qed.

(** What one request, on any route, can do to the world. *)
Lemma serve_frame sv e req w :
  let w' := snd (serve rt env sv e req w) in
  now w' = now w
  /\ (exists more, capsules w' = (capsules w ++ more)%list)
  /\ (forall k, is_Some (bucket w !! k) -> is_Some (bucket w' !! k))
  /\ (forall key value expiry,
         redis w' !! key = Some (value, expiry) ->
         redis w !! key = Some (value, expiry)
         \/ (value <> EmptyString /\ expiry = now w + 3600
             /\ exists owner, key = "capsules_" +:+ owner))
  /\ (exists calls, log w' = (log w ++ calls)%list).
Proof.
  cbv zeta. destruct e; unfold serve.
  - (* upload *)
    destruct (upload_route_cases rt env sv req w)
      as [H | [H | [H | [H | (file & _ & _ & _ & H)]]]]; rewrite H.
    1-4: cbn; split; [reflexivity |];
         split; [exists []; now rewrite app_nil_r |];
         split; [auto |]; split; [auto |];
         exists []; now rewrite app_nil_r.
    rewrite upload_handler_run. cbv zeta.
    destruct (fault sv (put_of _ _ _ _)).
    { cbn. split; [reflexivity |].
      split; [exists []; now rewrite app_nil_r |].
      split; [auto |]. split; [auto |]. eexists [_]. reflexivity. }
    assert (Hkeep : forall key obj k,
               is_Some (bucket w !! k) ->
               is_Some (<[key := obj]> (bucket w) !! k)).
    { intros key obj k Hk. apply lookup_insert_is_Some.
      destruct (decide (key = k)); auto. }
    destruct (fault sv (detect_of _)); cbn;
      (split; [reflexivity |]);
      (split; [exists []; now rewrite app_nil_r |]);
      (split; [apply Hkeep |]); (split; [auto |]);
      eexists [_; _]; now rewrite <- app_assoc.
  - (* create *)
    destruct (create_route_cases rt env sv req w) as [H | [H | [verified H]]];
      rewrite H.
    1-2: cbn; split; [reflexivity |];
         split; [exists []; now rewrite app_nil_r |];
         split; [auto |]; split; [auto |];
         exists []; now rewrite app_nil_r.
    rewrite create_handler_run. cbv zeta.
    destruct (fault sv (CapsuleSave _)); cbn.
    + split; [reflexivity |]. split; [exists []; now rewrite app_nil_r |].
      split; [auto |]. split; [auto |]. eexists [_]. reflexivity.
    + split; [reflexivity |]. split; [eexists [_]; reflexivity |].
      split; [auto |]. split; [auto |]. eexists [_]. reflexivity.
  - (* listing *)
    destruct (list_route_cases rt env sv req w) as [H | [H | [verified H]]];
      rewrite H.
    1-2: cbn; split; [reflexivity |];
         split; [exists []; now rewrite app_nil_r |];
         split; [auto |]; split; [auto |];
         exists []; now rewrite app_nil_r.
    destruct (list_handler_frame rt sv verified w)
      as (Hnow & Hcaps & _ & Hbucket & _ & Hredis & (calls & Hlog & _) & _).
    split; [exact Hnow |].
    split; [exists []; now rewrite app_nil_r |].
    split; [intros k; now rewrite Hbucket |].
    split; [| now exists calls].
    intros key value expiry Hentry.
    destruct Hredis as [Hsame | Hnew]; [left; now rewrite <- Hsame |].
    rewrite Hnew in Hentry.
    destruct (decide (cacheKey_of verified = key)) as [<- | Hne].
    + rewrite lookup_insert_eq in Hentry. injection Hentry as <- <-.
      right. split; [apply listing_text_nonempty |].
      split; [reflexivity |]. now exists (id verified).
    + rewrite lookup_insert_ne in Hentry by exact Hne. now left.
Qed.

End ServerOverTime.

(** X15. Whatever requests arrive on the three routes, however the
    services behave and however much time passes between them, a cache in
    which every entry sits under a listing key, holds a non-empty text
    and expires within 3600 seconds stays such a cache: the server never
    writes an empty text, another key or a longer expiry. *)
Theorem cache_stays_well_formed rt env arrivals w :
  cache_well_formed w ->
  cache_well_formed (serve_all rt env arrivals w).
Proof.
  revert w. induction arrivals as [| a rest IH]; intros w Hwf; [exact Hwf |].
  cbn [serve_all]. apply IH.
  set (w0 := elapse (Z.of_N (seconds_later a)) w).
  destruct (serve_frame rt env (services a) (endpoint a) (request a) w0)
    as (Hnow & _ & _ & Hredis & _).
  intros key value expiry Hentry. rewrite Hnow.
  destruct (Hredis key value expiry Hentry) as [Hold | (Hne & -> & Hkey)].
  - destruct (Hwf key value expiry Hold) as (Hne & Hexp & Hkey).
    split; [exact Hne |]. split; [| exact Hkey].
    unfold w0, elapse. cbn. lia.
  - split; [exact Hne |]. split; [lia | exact Hkey].
Qed.

(** X16. Whatever requests arrive on the three routes, nothing stored is
    ever removed: the capsule collection after them is the collection
    before with records added at the end, every object key of the bucket
    is still present, and the call log only grows. *)
Theorem nothing_is_deleted rt env arrivals w :
  let w' := serve_all rt env arrivals w in
  (exists more, capsules w' = (capsules w ++ more)%list)
  /\ (forall k, is_Some (bucket w !! k) -> is_Some (bucket w' !! k))
  /\ (exists calls, log w' = (log w ++ calls)%list)
  /\ now w <= now w'.
Proof.
  cbv zeta. revert w. induction arrivals as [| a rest IH]; intros w.
  - cbn. split; [exists []; now rewrite app_nil_r |].
    split; [auto |]. split; [exists []; now rewrite app_nil_r | lia].
  - cbn [serve_all].
    set (w0 := elapse (Z.of_N (seconds_later a)) w).
    destruct (serve_frame rt env (services a) (endpoint a) (request a) w0)
      as (Hnow & (more1 & Hcaps) & Hbucket & _ & (calls1 & Hlog)).
    destruct (IH (snd (serve rt env (services a) (endpoint a) (request a) w0)))
      as ((more2 & Hcaps2) & Hbucket2 & (calls2 & Hlog2) & Hnow2).
    split; [| split; [| split]].
    + exists (more1 ++ more2)%list. rewrite Hcaps2, Hcaps. cbn.
      now rewrite app_assoc.
    + intros k Hk. apply Hbucket2, Hbucket. exact Hk.
    + exists (calls1 ++ calls2)%list. rewrite Hlog2, Hlog. cbn.
      now rewrite app_assoc.
    + rewrite Hnow in Hnow2. unfold w0 in Hnow2.
      change (now (elapse (Z.of_N (seconds_later a)) w))
        with (now w + Z.of_N (seconds_later a)) in Hnow2.
      fold w0 in Hnow2. lia.
Qed.

(* ===================================================================== *)
(* The further properties on concrete requests                           *)
(* ===================================================================== *)

Lemma listing_cache_outage_witness :
  fst (get_api_capsules Reference.runtime Scenario.env Outage.cache_down
         Scenario.list_req Scenario.empty_entry)
  = Sent server_error
  /\ log (snd (get_api_capsules Reference.runtime Scenario.env Outage.cache_down
                 Scenario.list_req Scenario.empty_entry))
     = [RedisGet "capsules_alice"].
Proof.
  destruct (listing_cache_outage Reference.runtime Scenario.env Outage.cache_down
              Scenario.list_req Scenario.empty_entry Scenario.alice
              {| message := "ECONNREFUSED" |}) as (Hreply & Hlog & _).
  - alice_is_authenticated.
  - reflexivity.
  - split; [exact Hreply | exact Hlog].
Defined.

Lemma listing_unparsable_cache_witness :
  fst (get_api_capsules Reference.runtime Scenario.env Scenario.healthy
         Scenario.list_req
         (elapse 10 (snd (get_api_capsules Reference.runtime Scenario.env
                            Scenario.healthy Scenario.list_req
                            Outage.garbled_entry))))
  = fst (get_api_capsules Reference.runtime Scenario.env Scenario.healthy
           Scenario.list_req Outage.garbled_entry)
  /\ fst (get_api_capsules Reference.runtime Scenario.env Scenario.healthy
            Scenario.list_req Outage.garbled_entry)
     = Sent server_error.
Proof.
  destruct (listing_unparsable_cache Reference.runtime Scenario.env Scenario.healthy
              Scenario.list_req Outage.garbled_entry Scenario.alice "<html>"
              {| message := "Unexpected token in JSON" |} 10)
    as (Hfirst & _ & _ & Hsecond & _).
  - alice_is_authenticated.
  - alice_is_authenticated.
  - reflexivity.
  - reflexivity.
  - discriminate.
  - reflexivity.
  - reflexivity.
  - split; [exact Hsecond | exact Hfirst].
Defined.

Lemma listing_store_failure_witness :
  redis (snd (get_api_capsules Reference.runtime Scenario.env Scenario.store_down
                Scenario.list_req Scenario.fresh))
  = redis Scenario.fresh
  /\ fst (get_api_capsules Reference.runtime Scenario.env Scenario.store_down
            Scenario.list_req Scenario.fresh)
     = Sent server_error.
Proof.
  destruct (listing_store_failure Reference.runtime Scenario.env Scenario.store_down
              Scenario.list_req Scenario.fresh Scenario.alice
              {| message := "connection closed" |}) as (Hreply & _ & Hredis).
  - alice_is_authenticated.
  - reflexivity.
  - reflexivity.
  - reflexivity.
  - split; [exact Hredis | exact Hreply].
Defined.

(** Alice owns one capsule; her second listing, 100 seconds after the
    first, is the first one's text parsed back. *)
Lemma listing_fill_then_hit_witness :
  fst (get_api_capsules Reference.runtime Scenario.env Scenario.healthy
         Scenario.list_req
         (elapse 100 (snd (get_api_capsules Reference.runtime Scenario.env
                             Scenario.healthy Scenario.list_req
                             Scenario.empty_entry))))
  = Sent (ok (JArr [toJSON Scenario.alice_capsule])).
Proof.
  destruct (listing_fill_then_hit Reference.runtime Scenario.env Scenario.healthy
              Scenario.list_req Scenario.empty_entry Scenario.alice 100)
    as (_ & _ & Hsecond & _).
  - alice_is_authenticated.
  - alice_is_authenticated.
  - reflexivity.
  - reflexivity.
  - reflexivity.
  - reflexivity.
  - lia.
  - exact Hsecond.
Defined.

Lemma create_then_cold_listing_witness :
  fst (get_api_capsules Reference.runtime Scenario.env Scenario.healthy
         Scenario.list_req
         (snd (post_api_capsules_create Reference.runtime Scenario.env
                 Scenario.healthy Scenario.create_req Scenario.fresh)))
  = Sent (ok (JArr [toJSON {| _id := 0;
                              fields := doc_of Scenario.alice Scenario.create_req;
                              createdAt := 1000 |}])).
Proof.
  apply (create_then_cold_listing Reference.runtime Scenario.env Scenario.healthy
           Scenario.create_req Scenario.list_req Scenario.fresh Scenario.alice).
  - alice_is_authenticated.
  - alice_is_authenticated.
  - reflexivity.
  - reflexivity.
  - reflexivity.
  - reflexivity.
  - reflexivity.
Defined.

Lemma listing_after_expiry_witness :
  log (snd (get_api_capsules Reference.runtime Scenario.env Scenario.healthy
              Scenario.list_req
              (elapse 3600 (snd (get_api_capsules Reference.runtime Scenario.env
                                   Scenario.healthy Scenario.list_req
                                   Scenario.fresh)))))
  = [RedisGet "capsules_alice"; CapsuleFind "alice";
     RedisSetEx "capsules_alice" 3600 "[]";
     RedisGet "capsules_alice"; CapsuleFind "alice";
     RedisSetEx "capsules_alice" 3600 "[]"].
Proof.
  destruct (listing_after_expiry Reference.runtime Scenario.env Scenario.healthy
              Scenario.list_req Scenario.fresh Scenario.alice 3600)
    as (_ & _ & Hlog & _).
  - alice_is_authenticated.
  - alice_is_authenticated.
  - reflexivity.
  - reflexivity.
  - reflexivity.
  - reflexivity.
  - lia.
  - exact Hlog.
Defined.

(** With a capsule of alice and one of bob stored, alice's listing holds
    hers and not bob's. *)
Lemma listing_owner_only_witness :
  exists answered,
    fst (get_api_capsules Reference.runtime Scenario.env Scenario.healthy
           Scenario.list_req Outage.two_owners)
    = Sent {| status := 200; json := JArr (List.map toJSON answered) |}
    /\ In Scenario.alice_capsule answered /\ ~ In Outage.bob_capsule answered.
Proof.
  destruct (listing_owner_only Reference.runtime Scenario.env Scenario.healthy
              Scenario.list_req Outage.two_owners Scenario.alice)
    as (answered & Hreply & Hin).
  - alice_is_authenticated.
  - reflexivity.
  - reflexivity.
  - reflexivity.
  - reflexivity.
  - exists answered. split; [exact Hreply |]. split.
    + apply Hin. split; [left; reflexivity | reflexivity].
    + intros Hbob. apply Hin in Hbob. destruct Hbob as [_ Hbob]. discriminate Hbob.
Defined.

Lemma listing_cache_isolation_witness :
  cached "capsules_bob"
         (snd (get_api_capsules Reference.runtime Scenario.env Scenario.healthy
                 Scenario.list_req Outage.two_owners))
  = cached "capsules_bob" Outage.two_owners.
Proof.
  destruct (listing_cache_isolation Reference.runtime Scenario.env Scenario.healthy
              Scenario.list_req Outage.two_owners Scenario.alice)
    as (_ & Hothers).
  - alice_is_authenticated.
  - apply (Hothers Outage.bob). discriminate.
Defined.

Lemma upload_ignores_caller_witness :
  post_api_upload Reference.runtime Scenario.env Scenario.healthy
                  Scenario.upload_req Scenario.fresh
  = post_api_upload Reference.runtime Scenario.env Scenario.healthy
                    Outage.bob_upload_req Scenario.fresh.
Proof.
  apply (upload_ignores_caller Reference.runtime Scenario.env Scenario.healthy
           Scenario.upload_req Outage.bob_upload_req Scenario.fresh
           Scenario.alice Outage.bob).
  - alice_is_authenticated.
  - exists "s3cret.bob". split; [reflexivity | split; [discriminate | reflexivity]].
  - reflexivity.
Defined.

Lemma upload_twice_keeps_both_witness :
  bucket (snd (post_api_upload Reference.runtime Scenario.env Scenario.healthy
                 Scenario.upload_req
                 (elapse 2 (snd (post_api_upload Reference.runtime Scenario.env
                                   Scenario.healthy Scenario.upload_req
                                   Scenario.fresh)))))
    !! "0b5c2f9e-7a41-4c1d-9e57-3d2a6f10c4b0.JPG"
  = Some (buffer Scenario.photo, "image/jpeg")
  /\ bucket (snd (post_api_upload Reference.runtime Scenario.env Scenario.healthy
                    Scenario.upload_req
                    (elapse 2 (snd (post_api_upload Reference.runtime Scenario.env
                                      Scenario.healthy Scenario.upload_req
                                      Scenario.fresh)))))
       !! "0b5c2f9e-7a41-4c1d-9e57-3d2a6f10c4b1.JPG"
     = Some (buffer Scenario.photo, "image/jpeg").
Proof.
  destruct (upload_twice_keeps_both Reference.runtime Scenario.env Scenario.healthy
              Scenario.upload_req Scenario.fresh Scenario.alice Scenario.photo 2)
    as (_ & Hfirst & Hsecond & _).
  - alice_is_authenticated.
  - alice_is_authenticated.
  - reflexivity.
  - reflexivity.
  - discriminate.
  - vm_compute. discriminate.
  - reflexivity.
  - reflexivity.
  - reflexivity.
  - split; [exact Hfirst | exact Hsecond].
Defined.

Lemma create_save_failure_witness :
  fst (post_api_capsules_create Reference.runtime Scenario.env Outage.save_down
         Outage.bare_create_req Scenario.fresh)
  = Sent server_error
  /\ capsules (snd (post_api_capsules_create Reference.runtime Scenario.env
                      Outage.save_down Outage.bare_create_req Scenario.fresh))
     = [].
Proof.
  destruct (create_save_failure Reference.runtime Scenario.env Outage.save_down
              Outage.bare_create_req Scenario.fresh Scenario.alice
              {| message := "validation failed" |}) as (Hreply & Hcaps & _).
  - alice_is_authenticated.
  - reflexivity.
  - split; [exact Hreply | exact Hcaps].
Defined.

Lemma cache_stays_well_formed_witness :
  cache_well_formed
    (serve_all Reference.runtime Scenario.env Traffic.morning Scenario.fresh).
Proof.
  apply (cache_stays_well_formed Reference.runtime Scenario.env Traffic.morning
           Scenario.fresh).
  intros key value expiry Hentry. cbn in Hentry.
  rewrite lookup_empty in Hentry. discriminate Hentry.
Defined.

